(** * The HomeKit HeaterCooler accessory

    A shallow embedding of
    [homeassistant/components/homekit/type_heatercoolers.py]: the class
    [HeaterCooler] with its constructor, its HomeKit setter callbacks and
    [update_state], followed by the properties of the synchronisation
    engine that the code has, and the inputs on which it departs from
    them.

    Python objects are records, instance attributes that the constructor
    assigns on some paths only are [slot]s, dictionaries are association
    lists in insertion order, and a method is a function in a state and
    exception monad: the state survives a raise, as the object does in
    Python. *)

From Stdlib Require Import String Ascii ZArith QArith Qround Qabs List Bool
  Lia Lqa.
Import ListNotations.

Open Scope string_scope.
Open Scope list_scope.
Open Scope Z_scope.

(** ** Python values and control *)

Module Py.

(** The exceptions the modelled code can raise. *)
Inductive exn : Type :=
| TypeError
| AttributeError
| KeyError.

Inductive result (A : Type) : Type :=
| Ok (a : A)
| Raise (e : exn).
Arguments Ok {A} a.
Arguments Raise {A} e.

(** A computation over a state [S]: it returns or raises, and the state it
    leaves behind is the one reached at that point. *)
Definition M (S A : Type) : Type := S -> result A * S.

Definition ret {S A} (a : A) : M S A := fun s => (Ok a, s).

Definition raise {S A} (e : exn) : M S A := fun s => (Raise e, s).

Definition bind {S A B} (m : M S A) (k : A -> M S B) : M S B :=
  fun s =>
    match m s with
    | (Ok a, s') => k a s'
    | (Raise e, s') => (Raise e, s')
    end.

Definition get {S} : M S S := fun s => (Ok s, s).

Definition modify {S} (f : S -> S) : M S unit := fun s => (Ok tt, f s).

(** What a computation returns, and the state it leaves. *)
Definition outcome {S A} (m : M S A) (s : S) : result A := fst (m s).
Definition exec {S A} (m : M S A) (s : S) : S := snd (m s).

(** Values of attributes whose type the code tests at run time. *)
Inductive pyval : Type :=
| PNone
| PNum (q : Q)
| PStr (s : string).

(** An instance attribute that is assigned on some paths only; reading it
    while unassigned raises [AttributeError]. *)
Inductive slot (A : Type) : Type :=
| Unassigned
| Assigned (a : A).
Arguments Unassigned {A}.
Arguments Assigned {A} a.

Definition getattr {S A} (x : slot A) : M S A :=
  match x with
  | Assigned a => ret a
  | Unassigned => raise AttributeError
  end.

(** [list(...)]: the builtin takes at most one positional argument, an
    iterable. *)
Definition list_ {S A} (args : list (list A)) : M S (list A) :=
  match args with
  | [] => ret []
  | [iterable] => ret iterable
  | _ :: _ :: _ => raise TypeError
  end.

(** Iterating a string yields its one-character strings. *)
Fixpoint iter_str (s : string) : list string :=
  match s with
  | EmptyString => []
  | String c s' => String c EmptyString :: iter_str s'
  end.

(** [x in xs] on a list of strings. *)
Definition str_in (x : string) (xs : list string) : bool :=
  existsb (String.eqb x) xs.

(** [xs.remove(x)]: drops the first occurrence. The code calls it only
    after testing [x in xs], so the [ValueError] of an absent element
    cannot happen and the list is returned as it is. *)
Fixpoint remove (x : string) (xs : list string) : list string :=
  match xs with
  | [] => []
  | y :: ys => if String.eqb y x then ys else y :: remove x ys
  end.

(** [s.lower()] on the ASCII letters; bytes above 127 are left alone, and
    since no byte of a multi-byte UTF-8 sequence is an ASCII letter, the
    test ["off" in s.lower()] is the same on the bytes. *)
Definition lower_ascii (c : ascii) : ascii :=
  let n := nat_of_ascii c in
  if (Nat.leb 65 n && Nat.leb n 90)%bool then ascii_of_nat (n + 32) else c.

Fixpoint lower (s : string) : string :=
  match s with
  | EmptyString => EmptyString
  | String c s' => String (lower_ascii c) (lower s')
  end.

(** [sub in s] on strings. *)
Fixpoint contains (sub s : string) : bool :=
  (String.prefix sub s
   || match s with
      | EmptyString => false
      | String _ s' => contains sub s'
      end)%bool.

(** [round(q)]: to the nearest integer, ties to the even one. *)
Definition round (q : Q) : Z :=
  let f := Qfloor q in
  let d := (q - inject_Z f)%Q in
  match (d ?= 1 # 2)%Q with
  | Lt => f
  | Gt => f + 1
  | Eq => if Z.even f then f else f + 1
  end.

(** [d.get(key, default)], on what the key holds. *)
Definition get_or {A} (x : option A) (default : A) : A :=
  match x with
  | Some a => a
  | None => default
  end.

(** Truth value of a number that may be [None]. *)
Definition truthy_num (x : option Q) : bool :=
  match x with
  | Some q => negb (Qeq_bool q 0)
  | None => false
  end.

Definition truthy_str (s : string) : bool := negb (String.eqb s EmptyString).

(** *** Dictionaries: association lists in insertion order *)

Definition dict (K V : Type) : Type := list (K * V).

Section Dict.
Context {K V : Type} (eqb : K -> K -> bool).

(** [d[k] = v]: an existing key keeps its place. *)
Fixpoint dict_set (k : K) (v : V) (d : dict K V) : dict K V :=
  match d with
  | [] => [(k, v)]
  | (k', v') :: d' =>
      if eqb k' k then (k', v) :: d' else (k', v') :: dict_set k v d'
  end.

Fixpoint dict_get (k : K) (d : dict K V) : option V :=
  match d with
  | [] => None
  | (k', v') :: d' => if eqb k' k then Some v' else dict_get k d'
  end.

(** [k in d] *)
Definition dict_mem (k : K) (d : dict K V) : bool :=
  match dict_get k d with Some _ => true | None => false end.

(** A dictionary display [{k1: v1, k2: v2, ...}]. *)
Definition dict_of (items : list (K * V)) : dict K V :=
  fold_left (fun d kv => dict_set (fst kv) (snd kv) d) items [].

(** [d.pop(k, None)], for what it leaves in [d]: no entry under [k]. *)
Definition dict_del (k : K) (d : dict K V) : dict K V :=
  filter (fun kv => negb (eqb (fst kv) k)) d.

(** [d[k]] *)
Definition subscript {S} (d : dict K V) (k : K) : M S V :=
  match dict_get k d with
  | Some v => ret v
  | None => raise KeyError
  end.
End Dict.

End Py.
Import Py.

Declare Scope py_scope.
Delimit Scope py_scope with py.
Notation "x <- m ;; k" := (bind m (fun x => k))
  (at level 61, m at next level, right associativity) : py_scope.
Notation "m ;; k" := (bind m (fun _ => k))
  (at level 61, right associativity) : py_scope.
Open Scope py_scope.

(** ** What the module imports

    The constants of [homeassistant.components.climate.const] and
    [homeassistant.const] and the helpers of [.util] are declared outside
    this file. The code is modelled over any choice of them; the properties
    that depend on the constants being different names say so with
    [distinct_modes]. *)

Class Imports : Type := {
  (* homeassistant.components.climate.const *)
  HVAC_MODE_OFF : string;
  HVAC_MODE_HEAT : string;
  HVAC_MODE_COOL : string;
  HVAC_MODE_HEAT_COOL : string;
  HVAC_MODE_AUTO : string;
  HVAC_MODE_DRY : string;
  HVAC_MODE_FAN_ONLY : string;
  CURRENT_HVAC_OFF : string;
  CURRENT_HVAC_IDLE : string;
  CURRENT_HVAC_HEAT : string;
  CURRENT_HVAC_COOL : string;
  SUPPORT_TARGET_TEMPERATURE : Z;
  SUPPORT_TARGET_TEMPERATURE_RANGE : Z;
  SUPPORT_FAN_MODE : Z;
  SUPPORT_SWING_MODE : Z;
  DEFAULT_MAX_TEMP : Q;
  DEFAULT_MIN_TEMP : Q;
  (* homeassistant.const *)
  TEMP_CELSIUS : string;
  TEMP_FAHRENHEIT : string;
  (* .util: unit conversion, (temperature, unit) -> temperature *)
  temperature_to_homekit : Q -> string -> Q;
  temperature_to_states : Q -> string -> Q;
  (* .util: the two methods of HomeKitSpeedMapping(speed_list) *)
  speed_to_homekit : option (list string) -> option string -> option Q;
  speed_to_states : option (list string) -> Q -> string;
  (* pyhap: the value of a characteristic configured with valid values
     and no value of its own *)
  default_value : dict string Z -> Z
}.

(** The mode constants are seven different names. *)
Definition distinct_modes `{Imports} : Prop :=
  NoDup [HVAC_MODE_OFF; HVAC_MODE_HEAT; HVAC_MODE_COOL; HVAC_MODE_HEAT_COOL;
         HVAC_MODE_AUTO; HVAC_MODE_DRY; HVAC_MODE_FAN_ONLY].

(** ** Data model *)

(** The characteristic names of [.const]: identifiers of the protocol
    schema, compared only with each other. *)
Inductive char_name : Type :=
| CHAR_ACTIVE
| CHAR_COOLING_THRESHOLD_TEMPERATURE
| CHAR_CURRENT_HEATER_COOLER
| CHAR_CURRENT_TEMPERATURE
| CHAR_HEATING_THRESHOLD_TEMPERATURE
| CHAR_TARGET_HEATER_COOLER
| CHAR_TEMP_DISPLAY_UNITS
| CHAR_ROTATION_SPEED
| CHAR_SWING_MODE.

Definition char_name_eqb (a b : char_name) : bool :=
  match a, b with
  | CHAR_ACTIVE, CHAR_ACTIVE
  | CHAR_COOLING_THRESHOLD_TEMPERATURE, CHAR_COOLING_THRESHOLD_TEMPERATURE
  | CHAR_CURRENT_HEATER_COOLER, CHAR_CURRENT_HEATER_COOLER
  | CHAR_CURRENT_TEMPERATURE, CHAR_CURRENT_TEMPERATURE
  | CHAR_HEATING_THRESHOLD_TEMPERATURE, CHAR_HEATING_THRESHOLD_TEMPERATURE
  | CHAR_TARGET_HEATER_COOLER, CHAR_TARGET_HEATER_COOLER
  | CHAR_TEMP_DISPLAY_UNITS, CHAR_TEMP_DISPLAY_UNITS
  | CHAR_ROTATION_SPEED, CHAR_ROTATION_SPEED
  | CHAR_SWING_MODE, CHAR_SWING_MODE => true
  | _, _ => false
  end.

(** [name in self.chars] *)
Definition char_in (c : char_name) (cs : list char_name) : bool :=
  existsb (char_name_eqb c) cs.

(** The bounds a temperature characteristic is configured with. *)
Record Properties : Type := {
  PROP_MIN_VALUE : Q;
  PROP_MAX_VALUE : Q;
  PROP_MIN_STEP : Q
}.

(** A characteristic object, as [configure_char] returns it. A
    characteristic is an object without [__bool__] or [__len__], hence
    true in a condition. *)
Record Characteristic (V : Type) : Type := {
  display_name : char_name;
  value : V;
  properties : option Properties;
  valid_values : option (dict string Z)
}.
Arguments display_name {V} c.
Arguments value {V} c.
Arguments properties {V} c.
Arguments valid_values {V} c.

Definition configure_char {V} (name : char_name) (v : V)
    (props : option Properties) (valid : option (dict string Z))
  : Characteristic V :=
  {| display_name := name; value := v; properties := props;
     valid_values := valid |}.

(** [char.set_value(v)], for the value the characteristic then holds;
    what the protocol library does besides is outside this file. *)
Definition set_value {V} (v : V) (c : Characteristic V) : Characteristic V :=
  {| display_name := display_name c; value := v;
     properties := properties c; valid_values := valid_values c |}.

(** The attributes of a device state, one field per key the code reads
    ([ATTR_SUPPORTED_FEATURES], [ATTR_HVAC_MODES], ...). [None] is a key
    that is absent; for a key read without a default it is also a key
    that holds [None]. *)
Record Attributes : Type := {
  supported_features : option Z;
  hvac_modes : option (list string);
  fan_modes : option (list string);
  swing_modes : option (list string);
  max_temp : option Q;
  min_temp : option Q;
  target_temp_step : option Q;
  current_temperature : pyval;
  temperature : pyval;
  target_temp_high : pyval;
  target_temp_low : pyval;
  hvac_action : option string;
  fan_mode : option string;
  swing_mode : option string
}.

(** A device state: [state.state] and [state.attributes]. *)
Record State : Type := {
  state : string;
  attributes : Attributes
}.

(** What the constructor reads of [self.hass]. *)
Record Hass : Type := {
  temperature_unit : string;
  states_get : string -> option State
}.

(** The instance. The four flags, the three temperature characteristics
    and the five characteristics configured unconditionally are assigned
    on every path of [__init__]; [_flag_swing], [_flag_fan],
    [speed_mapping], [_swing_off], [_swing_on], [char_speed] and
    [char_swing] are assigned on some paths only. *)
Record HeaterCooler : Type := {
  entity_id : string;
  _unit : string;
  _flag_heat_cool : bool;
  _flag_temperature : bool;
  _flag_coolingthresh : bool;
  _flag_heatingthresh : bool;
  _flag_swing : slot bool;
  _flag_fan : slot bool;
  chars : list char_name;
  speed_mapping : slot (option (list string));
  _swing_off : slot string;
  _swing_on : slot string;
  hc_homekit_to_hass : dict Z string;
  char_current_heat_cool : Characteristic Z;
  char_target_heat_cool : Characteristic Z;
  char_active : Characteristic Z;
  char_current_temp : Characteristic Q;
  char_display_units : Characteristic Z;
  char_target_temp : option (Characteristic Q);
  char_cooling_thresh_temp : option (Characteristic Q);
  char_heating_thresh_temp : option (Characteristic Q);
  char_speed : slot (Characteristic Q);
  char_swing : slot (Characteristic Z)
}.

(** *** Logging *)

Inductive level : Type := ERROR | DEBUG.

(** One constructor per call of [_LOGGER], with its arguments. *)
Inductive log_record : Type :=
| modes_not_available (entity : string)
| heat_and_cool_single_target (entity : string)
| could_not_map_swing_modes (entity : string)
| set_heat_cool_to (entity : string) (value : Z) (hass_value : string)
| heat_cool_inactive (entity : string) (value : Z)
| invalid_heat_cool (entity : string) (value : Z)
| set_active_to (entity : string) (value : Z)
| set_cooling_threshold_to (entity : string) (value : Q)
| set_heating_threshold_to (entity : string) (value : Q)
| set_target_temperature_to (entity : string) (value : Q)
| set_oscillating_to (entity : string) (value : Z)
| set_speed_to (entity : string) (value : Q).

Definition levelno (r : log_record) : level :=
  match r with
  | modes_not_available _
  | heat_and_cool_single_target _
  | could_not_map_swing_modes _
  | invalid_heat_cool _ _ => ERROR
  | _ => DEBUG
  end.

(** *** Device commands *)

Inductive service : Type :=
| SERVICE_SET_HVAC_MODE_THERMOSTAT
| SERVICE_SET_TEMPERATURE_THERMOSTAT
| SERVICE_SET_FAN_MODE
| SERVICE_SET_SWING_MODE.

(** The keys of the parameter dictionaries. *)
Inductive param : Type :=
| ATTR_ENTITY_ID
| ATTR_HVAC_MODE
| ATTR_TARGET_TEMP_HIGH
| ATTR_TARGET_TEMP_LOW
| ATTR_TEMPERATURE
| ATTR_SWING_MODE
| ATTR_FAN_MODE.

(** One call of [self.call_service(DOMAIN_CLIMATE, service, params,
    value)]; [value], the text for the log, is kept as the parts it is
    formatted from. *)
Record service_call : Type := {
  service_name : service;
  service_data : list (param * pyval);
  log_value : list pyval
}.

Definition Logger : Type := list log_record.

Section Construction.
Context `{Imports}.

(** *** Module-level tables *)

Definition UNIT_HASS_TO_HOMEKIT : dict string Z :=
  dict_of String.eqb [(TEMP_CELSIUS, 0); (TEMP_FAHRENHEIT, 1)].

Definition HC_HASS_TO_HOMEKIT : dict string Z :=
  dict_of String.eqb
    [(HVAC_MODE_HEAT, 1); (HVAC_MODE_COOL, 2); (HVAC_MODE_AUTO, 0);
     (HVAC_MODE_HEAT_COOL, 0); (HVAC_MODE_FAN_ONLY, 2)].

Definition HC_HASS_TO_HOMEKIT_ACTION : dict string Z :=
  dict_of String.eqb
    [(CURRENT_HVAC_OFF, 0); (CURRENT_HVAC_IDLE, 1); (CURRENT_HVAC_HEAT, 2);
     (CURRENT_HVAC_COOL, 3)].

(** *** [__init__] *)

(** [_LOGGER.error(...)] and [_LOGGER.debug(...)] while constructing. *)
Definition emit (r : log_record) : M Logger unit :=
  modify (fun l => l ++ [r]).

(** [self.hass.states.get(self.entity_id).attributes] *)
Definition state_attributes (hass : Hass) (entity : string)
  : M Logger Attributes :=
  match states_get hass entity with
  | Some st => ret (attributes st)
  | None => raise AttributeError
  end.

(** [features & flag] as a condition. *)
Definition supports (features flag : Z) : bool :=
  negb (Z.land features flag =? 0).

(** [round(t * 2) / 2] *)
Definition round_half (t : Q) : Q :=
  (inject_Z (round (t * 2)) / 2)%Q.

Definition get_temperature_range (hass : Hass) (entity unit : string)
  : M Logger (Q * Q) :=
  a <- state_attributes hass entity ;;
  let max_temp :=
    match max_temp a with
    | Some t =>
        if truthy_num (Some t) then temperature_to_homekit t unit
        else DEFAULT_MAX_TEMP
    | None => DEFAULT_MAX_TEMP
    end in
  let max_temp := round_half max_temp in
  a <- state_attributes hass entity ;;
  let min_temp :=
    match min_temp a with
    | Some t =>
        if truthy_num (Some t) then temperature_to_homekit t unit
        else DEFAULT_MIN_TEMP
    | None => DEFAULT_MIN_TEMP
    end in
  let min_temp := round_half min_temp in
  ret (min_temp, max_temp).

(** Lines 116-122: the mode list, or the fallback when it is [None]. *)
Definition resolve_modes (entity : string) (a : Attributes)
  : M Logger (list string) :=
  match hvac_modes a with
  | Some modes => ret modes
  | None =>
      emit (modes_not_available entity) ;;
      list_ [iter_str HVAC_MODE_HEAT; iter_str HVAC_MODE_COOL;
             iter_str HVAC_MODE_HEAT_COOL]
  end.

(** Lines 124-141: the temperature characteristics. Returns [self.chars]
    and [single_temperature_char]. *)
Definition temperature_chars (entity : string) (features : Z)
    (modes : list string) (chars : list char_name)
  : M Logger (list char_name * option char_name) :=
  if supports features SUPPORT_TARGET_TEMPERATURE_RANGE then
    ret (chars ++ [CHAR_COOLING_THRESHOLD_TEMPERATURE;
                   CHAR_HEATING_THRESHOLD_TEMPERATURE], None)
  else if supports features SUPPORT_TARGET_TEMPERATURE then
    single <-
      (if (str_in HVAC_MODE_COOL modes && str_in HVAC_MODE_HEAT modes)%bool
       then
         emit (heat_and_cool_single_target entity) ;;
         ret CHAR_HEATING_THRESHOLD_TEMPERATURE
       else if str_in HVAC_MODE_COOL modes then
         ret CHAR_COOLING_THRESHOLD_TEMPERATURE
       else
         ret CHAR_HEATING_THRESHOLD_TEMPERATURE) ;;
    ret (chars ++ [single], Some single)
  else
    ret (chars, None).

(** Lines 143-146: fan support. Returns [self.chars] and
    [self.speed_mapping]. *)
Definition fan_chars (features : Z) (a : Attributes)
    (chars : list char_name)
  : list char_name * slot (option (list string)) :=
  if supports features SUPPORT_FAN_MODE then
    let speed_list := fan_modes a in
    (chars ++ [CHAR_ROTATION_SPEED], Assigned speed_list)
  else
    (chars, Unassigned).

(** Line 150 and line 151. *)
Definition swing_off_of (swing_modes : list string) : list string :=
  filter (fun a => contains "off" (lower a)) swing_modes.

Definition swing_on_of (swing_modes : list string) : list string :=
  filter (fun a => negb (str_in a (swing_off_of swing_modes))) swing_modes.

(** Lines 148-157: swing support. Returns [self.chars], [self._swing_off]
    and [self._swing_on]. The key [ATTR_SWING_MODES] defaults to the
    empty list. *)
Definition swing_chars (entity : string) (features : Z) (a : Attributes)
    (chars : list char_name)
  : M Logger (list char_name * slot string * slot string) :=
  if supports features SUPPORT_SWING_MODE then
    let swing_modes := get_or (swing_modes a) [] in
    let swing_off := swing_off_of swing_modes in
    let swing_on := swing_on_of swing_modes in
    match swing_on, swing_off with
    | on0 :: _, off0 :: _ =>
        ret (chars ++ [CHAR_SWING_MODE], Assigned off0, Assigned on0)
    | _, _ =>
        emit (could_not_map_swing_modes entity) ;;
        ret (chars, Unassigned, Unassigned)
    end
  else
    ret (chars, Unassigned, Unassigned).

(** Lines 167-171: the modes the accessory can be set to. *)
Definition usable_modes (modes : list string) : list string :=
  let usable_modes :=
    filter (fun a => dict_mem String.eqb a HC_HASS_TO_HOMEKIT) modes in
  let usable_modes :=
    if (str_in HVAC_MODE_AUTO usable_modes
        && str_in HVAC_MODE_HEAT_COOL usable_modes)%bool
    then remove HVAC_MODE_HEAT_COOL usable_modes
    else usable_modes in
  let usable_modes :=
    if (str_in HVAC_MODE_COOL usable_modes
        && str_in HVAC_MODE_FAN_ONLY usable_modes)%bool
    then remove HVAC_MODE_FAN_ONLY usable_modes
    else usable_modes in
  usable_modes.

(** Lines 173-175: [{c: s for s, c in HC_HASS_TO_HOMEKIT.items() if s in
    usable_modes}]; a later item overwrites an earlier one with the same
    HomeKit value. *)
Definition hc_homekit_to_hass_of (usable : list string) : dict Z string :=
  fold_left
    (fun d sc => if str_in (fst sc) usable
                 then dict_set Z.eqb (snd sc) (fst sc) d else d)
    HC_HASS_TO_HOMEKIT [].

(** Lines 177-178. *)
Definition valid_modes : list (string * Z) :=
  [("Auto", 0); ("Cool", 2); ("Heat", 1)].

Definition valid_values_of (homekit_to_hass : dict Z string)
  : dict string Z :=
  fold_left
    (fun d kv => if dict_mem Z.eqb (snd kv) homekit_to_hass
                 then dict_set String.eqb (fst kv) (snd kv) d else d)
    valid_modes [].

(** The constructor, on what [*args] gives it: [self.hass] and
    [self.entity_id]. [add_preload_service] and the setter callbacks
    leave no trace in the instance and are not represented. *)
Definition __init__ (hass : Hass) (entity : string)
  : M Logger HeaterCooler :=
  let unit := temperature_unit hass in
  range <- get_temperature_range hass entity unit ;;
  let (min_temp, max_temp) := range in
  a <- state_attributes hass entity ;;
  let temp_step := get_or (target_temp_step a) (1 # 2) in
  let chars := [CHAR_TEMP_DISPLAY_UNITS] in
  a <- state_attributes hass entity ;;
  let features := get_or (supported_features a) 0 in
  modes <- resolve_modes entity a ;;
  tc <- temperature_chars entity features modes chars ;;
  let (chars, single_temperature_char) := tc in
  let (chars, speed_mapping) := fan_chars features a chars in
  sc <- swing_chars entity features a chars ;;
  let '(chars, swing_off, swing_on) := sc in
  let usable := usable_modes modes in
  let homekit_to_hass := hc_homekit_to_hass_of usable in
  let valid_values := valid_values_of homekit_to_hass in
  let props :=
    Some {| PROP_MIN_VALUE := min_temp; PROP_MAX_VALUE := max_temp;
            PROP_MIN_STEP := temp_step |} in
  let ranged := supports features SUPPORT_TARGET_TEMPERATURE_RANGE in
  ret {|
    entity_id := entity;
    _unit := unit;
    _flag_heat_cool := false;
    _flag_temperature := false;
    _flag_coolingthresh := false;
    _flag_heatingthresh := false;
    _flag_swing := Unassigned;
    _flag_fan := Unassigned;
    chars := chars;
    speed_mapping := speed_mapping;
    _swing_off := swing_off;
    _swing_on := swing_on;
    hc_homekit_to_hass := homekit_to_hass;
    char_current_heat_cool :=
      configure_char CHAR_CURRENT_HEATER_COOLER 0 None None;
    char_target_heat_cool :=
      configure_char CHAR_TARGET_HEATER_COOLER (default_value valid_values)
        None (Some valid_values);
    char_active := configure_char CHAR_ACTIVE 1 None None;
    char_current_temp := configure_char CHAR_CURRENT_TEMPERATURE 21%Q None None;
    char_display_units := configure_char CHAR_TEMP_DISPLAY_UNITS 0 None None;
    char_target_temp :=
      if ranged then None
      else if supports features SUPPORT_TARGET_TEMPERATURE then
        match single_temperature_char with
        | Some name => Some (configure_char name 21%Q props None)
        | None => None
        end
      else None;
    char_cooling_thresh_temp :=
      if ranged
      then Some (configure_char CHAR_COOLING_THRESHOLD_TEMPERATURE 23%Q
                   props None)
      else None;
    char_heating_thresh_temp :=
      if ranged
      then Some (configure_char CHAR_HEATING_THRESHOLD_TEMPERATURE 19%Q
                   props None)
      else None;
    char_speed :=
      if char_in CHAR_ROTATION_SPEED chars
      then Assigned (configure_char CHAR_ROTATION_SPEED 0%Q None None)
      else Unassigned;
    char_swing :=
      if char_in CHAR_SWING_MODE chars
      then Assigned (configure_char CHAR_SWING_MODE 0 None None)
      else Unassigned
  |}.

End Construction.

(** ** Assignments to instance attributes

    [with_f x s] is the instance [s] after [self.f = x]; the arguments of
    the constructor follow the fields of [HeaterCooler] in order. *)

Definition with_flag_heat_cool (x : bool) (s : HeaterCooler)
  : HeaterCooler :=
  Build_HeaterCooler (entity_id s) (_unit s) x (_flag_temperature s)
    (_flag_coolingthresh s) (_flag_heatingthresh s) (_flag_swing s)
    (_flag_fan s) (chars s) (speed_mapping s) (_swing_off s) (_swing_on s)
    (hc_homekit_to_hass s) (char_current_heat_cool s) (char_target_heat_cool
    s) (char_active s) (char_current_temp s) (char_display_units s)
    (char_target_temp s) (char_cooling_thresh_temp s)
    (char_heating_thresh_temp s) (char_speed s) (char_swing s).

Definition with_flag_temperature (x : bool) (s : HeaterCooler)
  : HeaterCooler :=
  Build_HeaterCooler (entity_id s) (_unit s) (_flag_heat_cool s) x
    (_flag_coolingthresh s) (_flag_heatingthresh s) (_flag_swing s)
    (_flag_fan s) (chars s) (speed_mapping s) (_swing_off s) (_swing_on s)
    (hc_homekit_to_hass s) (char_current_heat_cool s) (char_target_heat_cool
    s) (char_active s) (char_current_temp s) (char_display_units s)
    (char_target_temp s) (char_cooling_thresh_temp s)
    (char_heating_thresh_temp s) (char_speed s) (char_swing s).

Definition with_flag_coolingthresh (x : bool) (s : HeaterCooler)
  : HeaterCooler :=
  Build_HeaterCooler (entity_id s) (_unit s) (_flag_heat_cool s)
    (_flag_temperature s) x (_flag_heatingthresh s) (_flag_swing s)
    (_flag_fan s) (chars s) (speed_mapping s) (_swing_off s) (_swing_on s)
    (hc_homekit_to_hass s) (char_current_heat_cool s) (char_target_heat_cool
    s) (char_active s) (char_current_temp s) (char_display_units s)
    (char_target_temp s) (char_cooling_thresh_temp s)
    (char_heating_thresh_temp s) (char_speed s) (char_swing s).

Definition with_flag_heatingthresh (x : bool) (s : HeaterCooler)
  : HeaterCooler :=
  Build_HeaterCooler (entity_id s) (_unit s) (_flag_heat_cool s)
    (_flag_temperature s) (_flag_coolingthresh s) x (_flag_swing s)
    (_flag_fan s) (chars s) (speed_mapping s) (_swing_off s) (_swing_on s)
    (hc_homekit_to_hass s) (char_current_heat_cool s) (char_target_heat_cool
    s) (char_active s) (char_current_temp s) (char_display_units s)
    (char_target_temp s) (char_cooling_thresh_temp s)
    (char_heating_thresh_temp s) (char_speed s) (char_swing s).

Definition with_flag_swing (x : slot bool) (s : HeaterCooler)
  : HeaterCooler :=
  Build_HeaterCooler (entity_id s) (_unit s) (_flag_heat_cool s)
    (_flag_temperature s) (_flag_coolingthresh s) (_flag_heatingthresh s) x
    (_flag_fan s) (chars s) (speed_mapping s) (_swing_off s) (_swing_on s)
    (hc_homekit_to_hass s) (char_current_heat_cool s) (char_target_heat_cool
    s) (char_active s) (char_current_temp s) (char_display_units s)
    (char_target_temp s) (char_cooling_thresh_temp s)
    (char_heating_thresh_temp s) (char_speed s) (char_swing s).

Definition with_flag_fan (x : slot bool) (s : HeaterCooler)
  : HeaterCooler :=
  Build_HeaterCooler (entity_id s) (_unit s) (_flag_heat_cool s)
    (_flag_temperature s) (_flag_coolingthresh s) (_flag_heatingthresh s)
    (_flag_swing s) x (chars s) (speed_mapping s) (_swing_off s) (_swing_on
    s) (hc_homekit_to_hass s) (char_current_heat_cool s)
    (char_target_heat_cool s) (char_active s) (char_current_temp s)
    (char_display_units s) (char_target_temp s) (char_cooling_thresh_temp s)
    (char_heating_thresh_temp s) (char_speed s) (char_swing s).

Definition with_char_current_heat_cool (x : Characteristic Z) (s : HeaterCooler)
  : HeaterCooler :=
  Build_HeaterCooler (entity_id s) (_unit s) (_flag_heat_cool s)
    (_flag_temperature s) (_flag_coolingthresh s) (_flag_heatingthresh s)
    (_flag_swing s) (_flag_fan s) (chars s) (speed_mapping s) (_swing_off s)
    (_swing_on s) (hc_homekit_to_hass s) x (char_target_heat_cool s)
    (char_active s) (char_current_temp s) (char_display_units s)
    (char_target_temp s) (char_cooling_thresh_temp s)
    (char_heating_thresh_temp s) (char_speed s) (char_swing s).

Definition with_char_target_heat_cool (x : Characteristic Z) (s : HeaterCooler)
  : HeaterCooler :=
  Build_HeaterCooler (entity_id s) (_unit s) (_flag_heat_cool s)
    (_flag_temperature s) (_flag_coolingthresh s) (_flag_heatingthresh s)
    (_flag_swing s) (_flag_fan s) (chars s) (speed_mapping s) (_swing_off s)
    (_swing_on s) (hc_homekit_to_hass s) (char_current_heat_cool s) x
    (char_active s) (char_current_temp s) (char_display_units s)
    (char_target_temp s) (char_cooling_thresh_temp s)
    (char_heating_thresh_temp s) (char_speed s) (char_swing s).

Definition with_char_active (x : Characteristic Z) (s : HeaterCooler)
  : HeaterCooler :=
  Build_HeaterCooler (entity_id s) (_unit s) (_flag_heat_cool s)
    (_flag_temperature s) (_flag_coolingthresh s) (_flag_heatingthresh s)
    (_flag_swing s) (_flag_fan s) (chars s) (speed_mapping s) (_swing_off s)
    (_swing_on s) (hc_homekit_to_hass s) (char_current_heat_cool s)
    (char_target_heat_cool s) x (char_current_temp s) (char_display_units s)
    (char_target_temp s) (char_cooling_thresh_temp s)
    (char_heating_thresh_temp s) (char_speed s) (char_swing s).

Definition with_char_current_temp (x : Characteristic Q) (s : HeaterCooler)
  : HeaterCooler :=
  Build_HeaterCooler (entity_id s) (_unit s) (_flag_heat_cool s)
    (_flag_temperature s) (_flag_coolingthresh s) (_flag_heatingthresh s)
    (_flag_swing s) (_flag_fan s) (chars s) (speed_mapping s) (_swing_off s)
    (_swing_on s) (hc_homekit_to_hass s) (char_current_heat_cool s)
    (char_target_heat_cool s) (char_active s) x (char_display_units s)
    (char_target_temp s) (char_cooling_thresh_temp s)
    (char_heating_thresh_temp s) (char_speed s) (char_swing s).

Definition with_char_display_units (x : Characteristic Z) (s : HeaterCooler)
  : HeaterCooler :=
  Build_HeaterCooler (entity_id s) (_unit s) (_flag_heat_cool s)
    (_flag_temperature s) (_flag_coolingthresh s) (_flag_heatingthresh s)
    (_flag_swing s) (_flag_fan s) (chars s) (speed_mapping s) (_swing_off s)
    (_swing_on s) (hc_homekit_to_hass s) (char_current_heat_cool s)
    (char_target_heat_cool s) (char_active s) (char_current_temp s) x
    (char_target_temp s) (char_cooling_thresh_temp s)
    (char_heating_thresh_temp s) (char_speed s) (char_swing s).

Definition with_char_target_temp (x : option (Characteristic Q)) (s : HeaterCooler)
  : HeaterCooler :=
  Build_HeaterCooler (entity_id s) (_unit s) (_flag_heat_cool s)
    (_flag_temperature s) (_flag_coolingthresh s) (_flag_heatingthresh s)
    (_flag_swing s) (_flag_fan s) (chars s) (speed_mapping s) (_swing_off s)
    (_swing_on s) (hc_homekit_to_hass s) (char_current_heat_cool s)
    (char_target_heat_cool s) (char_active s) (char_current_temp s)
    (char_display_units s) x (char_cooling_thresh_temp s)
    (char_heating_thresh_temp s) (char_speed s) (char_swing s).

Definition with_char_cooling_thresh_temp (x : option (Characteristic Q)) (s : HeaterCooler)
  : HeaterCooler :=
  Build_HeaterCooler (entity_id s) (_unit s) (_flag_heat_cool s)
    (_flag_temperature s) (_flag_coolingthresh s) (_flag_heatingthresh s)
    (_flag_swing s) (_flag_fan s) (chars s) (speed_mapping s) (_swing_off s)
    (_swing_on s) (hc_homekit_to_hass s) (char_current_heat_cool s)
    (char_target_heat_cool s) (char_active s) (char_current_temp s)
    (char_display_units s) (char_target_temp s) x (char_heating_thresh_temp
    s) (char_speed s) (char_swing s).

Definition with_char_heating_thresh_temp (x : option (Characteristic Q)) (s : HeaterCooler)
  : HeaterCooler :=
  Build_HeaterCooler (entity_id s) (_unit s) (_flag_heat_cool s)
    (_flag_temperature s) (_flag_coolingthresh s) (_flag_heatingthresh s)
    (_flag_swing s) (_flag_fan s) (chars s) (speed_mapping s) (_swing_off s)
    (_swing_on s) (hc_homekit_to_hass s) (char_current_heat_cool s)
    (char_target_heat_cool s) (char_active s) (char_current_temp s)
    (char_display_units s) (char_target_temp s) (char_cooling_thresh_temp s)
    x (char_speed s) (char_swing s).

Definition with_char_speed (x : slot (Characteristic Q)) (s : HeaterCooler)
  : HeaterCooler :=
  Build_HeaterCooler (entity_id s) (_unit s) (_flag_heat_cool s)
    (_flag_temperature s) (_flag_coolingthresh s) (_flag_heatingthresh s)
    (_flag_swing s) (_flag_fan s) (chars s) (speed_mapping s) (_swing_off s)
    (_swing_on s) (hc_homekit_to_hass s) (char_current_heat_cool s)
    (char_target_heat_cool s) (char_active s) (char_current_temp s)
    (char_display_units s) (char_target_temp s) (char_cooling_thresh_temp s)
    (char_heating_thresh_temp s) x (char_swing s).

Definition with_char_swing (x : slot (Characteristic Z)) (s : HeaterCooler)
  : HeaterCooler :=
  Build_HeaterCooler (entity_id s) (_unit s) (_flag_heat_cool s)
    (_flag_temperature s) (_flag_coolingthresh s) (_flag_heatingthresh s)
    (_flag_swing s) (_flag_fan s) (chars s) (speed_mapping s) (_swing_off s)
    (_swing_on s) (hc_homekit_to_hass s) (char_current_heat_cool s)
    (char_target_heat_cool s) (char_active s) (char_current_temp s)
    (char_display_units s) (char_target_temp s) (char_cooling_thresh_temp s)
    (char_heating_thresh_temp s) (char_speed s) x.

(** ** The accessory at run time *)

(** The instance together with what its methods act on: the commands
    handed to [self.call_service], the records given to [_LOGGER], and
    [self.debounce], the pending value of each debounced setter. *)
Record World : Type := {
  self : HeaterCooler;
  calls : list service_call;
  logged : Logger;
  debounce : dict string Q
}.

Definition assign (f : HeaterCooler -> HeaterCooler) : M World unit :=
  modify (fun w => {| self := f (self w); calls := calls w;
                      logged := logged w; debounce := debounce w |}).

Definition _LOGGER (r : log_record) : M World unit :=
  modify (fun w => {| self := self w; calls := calls w;
                      logged := logged w ++ [r]; debounce := debounce w |}).

(** [self.call_service(DOMAIN_CLIMATE, service, params, value)]: the
    command is handed over and not waited for. *)
Definition call_service (srv : service) (params : list (param * pyval))
    (v : list pyval) : M World unit :=
  modify (fun w =>
    {| self := self w;
       calls := calls w ++ [{| service_name := srv; service_data := params;
                               log_value := v |}];
       logged := logged w; debounce := debounce w |}).

Definition with_debounce (d : dict string Q) (w : World) : World :=
  {| self := self w; calls := calls w; logged := logged w; debounce := d |}.

(** [char.value] of a characteristic attribute that may hold [None]. *)
Definition value_of {V} (c : option (Characteristic V)) : M World V :=
  match c with
  | Some c => ret (value c)
  | None => raise AttributeError
  end.

Section Methods.
Context `{Imports}.

(** *** Setter callbacks *)

Definition set_heat_cool (v : Z) : M World unit :=
  w <- get ;;
  let s := self w in
  let is_active := value (char_active s) in
  if dict_mem Z.eqb v (hc_homekit_to_hass s) then
    if negb (is_active =? 0) then
      assign (with_flag_heat_cool true) ;;
      hass_value <- subscript Z.eqb (hc_homekit_to_hass s) v ;;
      _LOGGER (set_heat_cool_to (entity_id s) v hass_value) ;;
      let params := [(ATTR_ENTITY_ID, PStr (entity_id s));
                     (ATTR_HVAC_MODE, PStr hass_value)] in
      call_service SERVICE_SET_HVAC_MODE_THERMOSTAT params [PStr hass_value]
    else
      _LOGGER (heat_cool_inactive (entity_id s) v)
  else
    _LOGGER (invalid_heat_cool (entity_id s) v).

Definition set_active (v : Z) : M World unit :=
  w <- get ;;
  let s := self w in
  _LOGGER (set_active_to (entity_id s) v) ;;
  if v =? 0 then
    let hass_value := HVAC_MODE_OFF in
    assign (with_flag_heat_cool true) ;;
    let params := [(ATTR_ENTITY_ID, PStr (entity_id s));
                   (ATTR_HVAC_MODE, PStr hass_value)] in
    call_service SERVICE_SET_HVAC_MODE_THERMOSTAT params [PStr hass_value]
  else
    let current_hk_mode := value (char_target_heat_cool s) in
    set_heat_cool current_hk_mode.

(** The bodies of the four setters under [@debounce]. *)

Definition set_cooling_threshold (v : Q) : M World unit :=
  w <- get ;;
  let s := self w in
  _LOGGER (set_cooling_threshold_to (entity_id s) v) ;;
  assign (with_flag_coolingthresh true) ;;
  low <- value_of (char_heating_thresh_temp s) ;;
  let temperature := temperature_to_states v (_unit s) in
  let params :=
    [(ATTR_ENTITY_ID, PStr (entity_id s));
     (ATTR_TARGET_TEMP_HIGH, PNum temperature);
     (ATTR_TARGET_TEMP_LOW, PNum (temperature_to_states low (_unit s)))] in
  call_service SERVICE_SET_TEMPERATURE_THERMOSTAT params
    [PStr "cooling threshold "; PNum temperature; PStr (_unit s)].

Definition set_heating_threshold (v : Q) : M World unit :=
  w <- get ;;
  let s := self w in
  _LOGGER (set_heating_threshold_to (entity_id s) v) ;;
  assign (with_flag_heatingthresh true) ;;
  high <- value_of (char_cooling_thresh_temp s) ;;
  let temperature := temperature_to_states v (_unit s) in
  let params :=
    [(ATTR_ENTITY_ID, PStr (entity_id s));
     (ATTR_TARGET_TEMP_HIGH, PNum (temperature_to_states high (_unit s)));
     (ATTR_TARGET_TEMP_LOW, PNum temperature)] in
  call_service SERVICE_SET_TEMPERATURE_THERMOSTAT params
    [PStr "heating threshold "; PNum temperature; PStr (_unit s)].

Definition set_target_temperature (v : Q) : M World unit :=
  w <- get ;;
  let s := self w in
  _LOGGER (set_target_temperature_to (entity_id s) v) ;;
  assign (with_flag_temperature true) ;;
  let temperature := temperature_to_states v (_unit s) in
  let params := [(ATTR_ENTITY_ID, PStr (entity_id s));
                 (ATTR_TEMPERATURE, PNum temperature)] in
  call_service SERVICE_SET_TEMPERATURE_THERMOSTAT params
    [PNum temperature; PStr (_unit s)].

Definition set_swing_mode (v : Z) : M World unit :=
  w <- get ;;
  let s := self w in
  _LOGGER (set_oscillating_to (entity_id s) v) ;;
  assign (with_flag_swing (Assigned true)) ;;
  oscillating <-
    (if v =? 1 then getattr (_swing_on s) else getattr (_swing_off s)) ;;
  let params := [(ATTR_ENTITY_ID, PStr (entity_id s));
                 (ATTR_SWING_MODE, PStr oscillating)] in
  call_service SERVICE_SET_SWING_MODE params [PStr oscillating].

Definition set_fan_mode (v : Q) : M World unit :=
  w <- get ;;
  let s := self w in
  assign (with_flag_fan (Assigned true)) ;;
  _LOGGER (set_speed_to (entity_id s) v) ;;
  mapping <- getattr (speed_mapping s) ;;
  let speed := speed_to_states mapping v in
  let params := [(ATTR_ENTITY_ID, PStr (entity_id s));
                 (ATTR_FAN_MODE, PStr speed)] in
  call_service SERVICE_SET_FAN_MODE params [PStr speed].

(** *** [update_state]

    One definition per commented block of the method, in its order. *)

(** Update current temperature *)
Definition update_current_temperature (new_state : State) : M World unit :=
  w <- get ;;
  let s := self w in
  match current_temperature (attributes new_state) with
  | PNum t =>
      let current_temp := temperature_to_homekit t (_unit s) in
      assign (with_char_current_temp
                (set_value current_temp (char_current_temp s)))
  | _ => ret tt
  end.

(** Update target temperature *)
Definition update_target_temperature (new_state : State) : M World unit :=
  w <- get ;;
  let s := self w in
  match char_target_temp s with
  | Some c =>
      match temperature (attributes new_state) with
      | PNum t =>
          let target_temp := temperature_to_homekit t (_unit s) in
          if negb (_flag_temperature s)
          then assign (with_char_target_temp
                         (Some (set_value target_temp c)))
          else ret tt
      | _ => ret tt
      end ;;
      assign (with_flag_temperature false)
  | None => ret tt
  end.

(** Update cooling threshold temperature if characteristic exists *)
Definition update_cooling_threshold (new_state : State) : M World unit :=
  w <- get ;;
  let s := self w in
  match char_cooling_thresh_temp s with
  | Some c =>
      match target_temp_high (attributes new_state) with
      | PNum t =>
          let cooling_thresh := temperature_to_homekit t (_unit s) in
          if negb (_flag_coolingthresh s)
          then assign (with_char_cooling_thresh_temp
                         (Some (set_value cooling_thresh c)))
          else ret tt
      | _ => ret tt
      end
  | None => ret tt
  end ;;
  assign (with_flag_coolingthresh false).

(** Update heating threshold temperature if characteristic exists *)
Definition update_heating_threshold (new_state : State) : M World unit :=
  w <- get ;;
  let s := self w in
  match char_heating_thresh_temp s with
  | Some c =>
      match target_temp_low (attributes new_state) with
      | PNum t =>
          let heating_thresh := temperature_to_homekit t (_unit s) in
          if negb (_flag_heatingthresh s)
          then assign (with_char_heating_thresh_temp
                         (Some (set_value heating_thresh c)))
          else ret tt
      | _ => ret tt
      end
  | None => ret tt
  end ;;
  assign (with_flag_heatingthresh false).

(** Update display units *)
Definition update_display_units : M World unit :=
  w <- get ;;
  let s := self w in
  if (truthy_str (_unit s)
      && dict_mem String.eqb (_unit s) UNIT_HASS_TO_HOMEKIT)%bool
  then
    u <- subscript String.eqb UNIT_HASS_TO_HOMEKIT (_unit s) ;;
    assign (with_char_display_units (set_value u (char_display_units s)))
  else ret tt.

(** Update target operation mode *)
Definition update_target_mode (new_state : State) : M World unit :=
  w <- get ;;
  let s := self w in
  let hvac_mode := state new_state in
  (if (truthy_str hvac_mode
       && str_in hvac_mode [HVAC_MODE_OFF; HVAC_MODE_DRY])%bool
   then
     if negb (_flag_heat_cool s)
     then assign (with_char_active (set_value 0 (char_active s)))
     else ret tt
   else if (truthy_str hvac_mode
            && dict_mem String.eqb hvac_mode HC_HASS_TO_HOMEKIT)%bool
   then
     if negb (_flag_heat_cool s)
     then
       assign (with_char_active (set_value 1 (char_active s))) ;;
       m <- subscript String.eqb HC_HASS_TO_HOMEKIT hvac_mode ;;
       assign (with_char_target_heat_cool
                 (set_value m (char_target_heat_cool s)))
     else ret tt
   else ret tt) ;;
  assign (with_flag_heat_cool false).

(** Set current operation mode for supported thermostats *)
Definition update_current_mode (new_state : State) : M World unit :=
  w <- get ;;
  let s := self w in
  match hvac_action (attributes new_state) with
  | Some hvac_action =>
      if truthy_str hvac_action then
        a <- subscript String.eqb HC_HASS_TO_HOMEKIT_ACTION hvac_action ;;
        assign (with_char_current_heat_cool
                  (set_value a (char_current_heat_cool s)))
      else ret tt
  | None => ret tt
  end.

(** Handle Speed *)
Definition update_speed (new_state : State) : M World unit :=
  w <- get ;;
  let s := self w in
  c <- getattr (char_speed s) ;;
  let speed := fan_mode (attributes new_state) in
  mapping <- getattr (speed_mapping s) ;;
  let hk_speed_value := speed_to_homekit mapping speed in
  match hk_speed_value with
  | Some v =>
      if negb (Qeq_bool (value c) v)
      then assign (with_char_speed (Assigned (set_value v c)))
      else ret tt
  | None => ret tt
  end ;;
  assign (with_flag_fan (Assigned false)).

(** Handle Oscillating *)
Definition update_swing (new_state : State) : M World unit :=
  w <- get ;;
  let s := self w in
  c <- getattr (char_swing s) ;;
  let oscillating := swing_mode (attributes new_state) in
  flag_swing <- getattr (_flag_swing s) ;;
  (if negb flag_swing then
     match oscillating with
     | Some o =>
         let hk_oscillating := if contains "off" (lower o) then 0 else 1 in
         assign (with_char_swing (Assigned (set_value hk_oscillating c)))
     | None => raise AttributeError
     end
   else ret tt) ;;
  assign (with_flag_swing (Assigned false)).

Definition update_state (new_state : State) : M World unit :=
  update_current_temperature new_state ;;
  update_target_temperature new_state ;;
  update_cooling_threshold new_state ;;
  update_heating_threshold new_state ;;
  update_display_units ;;
  update_target_mode new_state ;;
  update_current_mode new_state ;;
  update_speed new_state ;;
  update_swing new_state.

End Methods.

(** ** Debouncing *)

(** Modelled from the spec: the decorator [debounce] of [.accessories],
    which is not in this file. The spec keeps, per debounced setter, the
    last scheduled value and a pending timer; a write records its value and
    (re)starts the timer, and only the expiry of the timer runs the setter,
    on the value that is the latest then; intermediate values are
    discarded. A pending timer is an entry of [self.debounce] under the
    setter's name; time is the order of the writes and the expiry. *)
Definition debounce_write (name : string) (v : Q) : M World unit :=
  modify (fun w => with_debounce (dict_set String.eqb name v (debounce w)) w).

(** Modelled from the spec: the expiry of the timer of a debounced
    setter, which the same decorator schedules. With a value pending it
    takes the value out of [self.debounce] and runs the setter on it;
    with none it does nothing. *)
Definition debounce_expire (name : string) (func : Q -> M World unit)
  : M World unit :=
  w <- get ;;
  match dict_get String.eqb name (debounce w) with
  | Some v =>
      modify (with_debounce (dict_del String.eqb name (debounce w))) ;;
      func v
  | None => ret tt
  end.

(** A burst of writes to one debounced setter, first to last. *)
Fixpoint debounce_writes (name : string) (vs : list Q) : M World unit :=
  match vs with
  | [] => ret tt
  | v :: vs' => debounce_write name v ;; debounce_writes name vs'
  end.

(** The world of a freshly constructed accessory. *)
Definition fresh (s : HeaterCooler) (l : Logger) : World :=
  {| self := s; calls := []; logged := l; debounce := [] |}.

(** ** An instance of the imports

    Home Assistant's values of the constants, a linear unit conversion, and
    a speed mapping on the scale 0..100; the examples are evaluated in it. *)

Module Sample.

Definition fahrenheit : string := "°F".

Definition to_homekit (t : Q) (unit : string) : Q :=
  if String.eqb unit fahrenheit then ((t - 32) * 5 / 9)%Q else t.

Definition to_states (t : Q) (unit : string) : Q :=
  if String.eqb unit fahrenheit then (t * 9 / 5 + 32)%Q else t.

Fixpoint index_of (name : string) (l : list string) : option nat :=
  match l with
  | [] => None
  | x :: l' =>
      if String.eqb x name then Some O
      else option_map S (index_of name l')
  end.

(** Modelled from the spec: [HomeKitSpeedMapping] of [.util], which is
    not in this file. A named speed maps to its position on a bounded
    numeric scale; an unknown one maps to [None]. *)
Definition to_speed (speed_list : option (list string))
    (speed : option string) : option Q :=
  match speed_list, speed with
  | Some l, Some name =>
      match index_of name l with
      | Some i =>
          Some (Qred (inject_Z (Z.of_nat i * 100)
                      / inject_Z (Z.of_nat (length l - 1))))
      | None => None
      end
  | _, _ => None
  end.

(** Modelled from the spec: a protocol value always resolves to a device
    speed, the one at the nearest valid position. *)
Definition of_speed (speed_list : option (list string)) (v : Q) : string :=
  match speed_list with
  | Some l =>
      let top := Z.of_nat (length l - 1) in
      let i := Z.max 0 (Z.min top (round (v * inject_Z top / 100))) in
      nth (Z.to_nat i) l EmptyString
  | None => EmptyString
  end.

#[export] Instance imports : Imports := {|
  HVAC_MODE_OFF := "off";
  HVAC_MODE_HEAT := "heat";
  HVAC_MODE_COOL := "cool";
  HVAC_MODE_HEAT_COOL := "heat_cool";
  HVAC_MODE_AUTO := "auto";
  HVAC_MODE_DRY := "dry";
  HVAC_MODE_FAN_ONLY := "fan_only";
  CURRENT_HVAC_OFF := "off";
  CURRENT_HVAC_IDLE := "idle";
  CURRENT_HVAC_HEAT := "heating";
  CURRENT_HVAC_COOL := "cooling";
  SUPPORT_TARGET_TEMPERATURE := 1;
  SUPPORT_TARGET_TEMPERATURE_RANGE := 2;
  SUPPORT_FAN_MODE := 8;
  SUPPORT_SWING_MODE := 32;
  DEFAULT_MAX_TEMP := 35;
  DEFAULT_MIN_TEMP := 7;
  TEMP_CELSIUS := "°C";
  TEMP_FAHRENHEIT := fahrenheit;
  temperature_to_homekit := to_homekit;
  temperature_to_states := to_states;
  speed_to_homekit := to_speed;
  speed_to_states := of_speed;
  default_value := fun _ => 0
|}.

(** A device state with the given mode, features and lists, and nothing
    else reported. *)
Definition device (mode : string) (features : Z)
    (modes : option (list string)) (fans swings : option (list string))
  : State :=
  {| state := mode;
     attributes :=
       {| supported_features := Some features;
          hvac_modes := modes;
          fan_modes := fans;
          swing_modes := swings;
          max_temp := None; min_temp := None; target_temp_step := None;
          current_temperature := PNone; temperature := PNone;
          target_temp_high := PNone; target_temp_low := PNone;
          hvac_action := None; fan_mode := None; swing_mode := None |} |}.

Definition hass_with (st : State) : Hass :=
  {| temperature_unit := "°C";
     states_get := fun entity =>
       if String.eqb entity "climate.test" then Some st else None |}.

Definition entity : string := "climate.test".

(** The value of a computation that returns. *)
Definition the {A : Type} (r : result A)
  : match r return Type with Ok _ => A | Raise _ => unit end :=
  match r with Ok a => a | Raise _ => tt end.

(** A device with temperature range, fan and swing support. *)
Definition full : State :=
  {| state := "cool";
     attributes :=
       {| supported_features := Some 42;
          hvac_modes := Some ["heat"; "cool"; "auto"; "heat_cool"; "fan_only"];
          fan_modes := Some ["off"; "low"; "high"];
          swing_modes := Some ["swing_off"; "swing_on"];
          max_temp := Some 30%Q; min_temp := Some 16%Q;
          target_temp_step := Some 1%Q;
          current_temperature := PNum 22; temperature := PNone;
          target_temp_high := PNum 25; target_temp_low := PNum 20;
          hvac_action := Some "cooling"; fan_mode := Some "low";
          swing_mode := Some "swing_off" |} |}.

(** The accessory constructed for it, before any write or refresh. *)
Definition accessory : HeaterCooler :=
  the (fst (__init__ (hass_with full) entity [])).

Definition world : World := fresh accessory [].

(** A heater with a single target temperature, no fan and no swing. *)
Definition heater : State :=
  device "heat" 1 (Some ["heat"; "off"]) None None.

Definition heater_accessory : HeaterCooler :=
  the (fst (__init__ (hass_with heater) entity [])).

(** A cooler with a single target temperature. *)
Definition cooler : State :=
  device "cool" 1 (Some ["cool"; "off"]) None None.

(** A cooler with swing support whose swing modes are fan speeds. *)
Definition breezy : State :=
  device "cool" 34 (Some ["cool"]) None (Some ["low"; "medium"; "high"]).

Definition breezy_accessory : HeaterCooler :=
  the (fst (__init__ (hass_with breezy) entity [])).

(** A device with a temperature range and the modes Heat, Cool and
    Heat+Cool, in Celsius, with the default bounds and step. *)
Definition ranged : State :=
  device "heat" 2 (Some ["heat"; "cool"; "heat_cool"]) None None.

Definition ranged_accessory : HeaterCooler :=
  the (fst (__init__ (hass_with ranged) entity [])).

(** The device switched off: the accessory [accessory] once its active
    characteristic holds 0. *)
Definition idle : World :=
  fresh (with_char_active (set_value 0 (char_active accessory)) accessory) [].

(** A controller writes swing mode 1 and rotation speed 100: the
    protocol layer stores each value in its characteristic and the setter
    runs, for the speed once its debounce timer has expired. *)
Definition controller_writes : M World unit :=
  w <- get ;;
  swing <- getattr (char_swing (self w)) ;;
  assign (with_char_swing (Assigned (set_value 1 swing))) ;;
  set_swing_mode 1 ;;
  speed <- getattr (char_speed (self w)) ;;
  assign (with_char_speed (Assigned (set_value 100%Q speed))) ;;
  set_fan_mode 100%Q.

(** The values the two characteristics hold. *)
Definition speed_value (w : World) : option Q :=
  match char_speed (self w) with
  | Assigned c => Some (value c)
  | Unassigned => None
  end.

Definition swing_value (w : World) : option Z :=
  match char_swing (self w) with
  | Assigned c => Some (value c)
  | Unassigned => None
  end.

(** The device [full] while it reports an action that the action table
    does not have. *)
Definition drying : State :=
  {| state := "cool";
     attributes :=
       {| supported_features := Some 42;
          hvac_modes := Some ["heat"; "cool"; "auto"; "heat_cool"; "fan_only"];
          fan_modes := Some ["off"; "low"; "high"];
          swing_modes := Some ["swing_off"; "swing_on"];
          max_temp := Some 30%Q; min_temp := Some 16%Q;
          target_temp_step := Some 1%Q;
          current_temperature := PNum 22; temperature := PNone;
          target_temp_high := PNum 25; target_temp_low := PNum 20;
          hvac_action := Some "drying"; fan_mode := Some "low";
          swing_mode := Some "swing_off" |} |}.


End Sample.

(** * Vocabulary of the properties *)

(** ** Outcomes of computations *)

Section Outcomes.
Context {S : Type}.

(** [m] never raises. *)
Definition returns {A} (m : M S A) : Prop :=
  forall s, exists a, outcome m s = Ok a.

(** From a state in [P], [m] leaves a state in [Q], whether it returns
    or raises. *)
Definition leads {A} (P : S -> Prop) (m : M S A) (Q : S -> Prop) : Prop :=
  forall s, P s -> Q (exec m s).

(** [m] does not raise from a state in [P]. *)
Definition returns_on {A} (P : S -> Prop) (m : M S A) : Prop :=
  forall s, P s -> exists a, outcome m s = Ok a.

End Outcomes.

(** ** What the properties speak of *)

Section Vocabulary.
Context `{Imports}.

(** The blocks of a method, run in order; the last one ends it. *)
Fixpoint seq_all {S} (ms : list (M S unit)) : M S unit :=
  match ms with
  | [] => ret tt
  | m :: ms' =>
      match ms' with
      | [] => m
      | _ :: _ => m ;; seq_all ms'
      end
  end.

(** [update_state] is the sequence of its nine blocks. *)
Definition blocks (new_state : State) : list (M World unit) :=
  [update_current_temperature new_state;
   update_target_temperature new_state;
   update_cooling_threshold new_state;
   update_heating_threshold new_state;
   update_display_units;
   update_target_mode new_state;
   update_current_mode new_state;
   update_speed new_state;
   update_swing new_state].

Definition with_logged (l : Logger) (w : World) : World :=
  {| self := self w; calls := calls w; logged := l; debounce := debounce w |}.

(** [m] acts on the world with another log as it does on the world. *)
Definition log_blind {A} (m : M World A) : Prop :=
  forall l w, m (with_logged l w) = (fst (m w), with_logged l (snd (m w))).

(** The mode flag and the two characteristics it guards. *)
Definition mode_is (flag : bool) (target active : Characteristic Z)
    (w : World) : Prop :=
  _flag_heat_cool (self w) = flag /\
  char_target_heat_cool (self w) = target /\
  char_active (self w) = active.

(** What the block on the target mode does to them. *)
Definition refreshed_mode (ns : State) (flag : bool)
    (target active : Characteristic Z)
  : Characteristic Z * Characteristic Z :=
  if flag then (target, active)
  else if (truthy_str (state ns)
           && str_in (state ns) [HVAC_MODE_OFF; HVAC_MODE_DRY])%bool
  then (target, set_value 0 active)
  else if truthy_str (state ns) then
    match dict_get String.eqb (state ns) HC_HASS_TO_HOMEKIT with
    | Some m => (set_value m target, set_value 1 active)
    | None => (target, active)
    end
  else (target, active).

(** What a refresh does to a temperature characteristic [c] guarded by a
    flag, given what the device reports for it. *)
Definition refreshed (reported : pyval) (flag : bool)
    (c : Characteristic Q) (unit : string) : Characteristic Q :=
  match reported with
  | PNum t => if flag then c else set_value (temperature_to_homekit t unit) c
  | _ => c
  end.


Definition cooling_is (flag : bool) (c : Characteristic Q)
    (unit : string) (w : World) : Prop :=
  _flag_coolingthresh (self w) = flag /\
  char_cooling_thresh_temp (self w) = Some c /\
  _unit (self w) = unit.

Definition heating_is (flag : bool) (c : Characteristic Q)
    (unit : string) (w : World) : Prop :=
  _flag_heatingthresh (self w) = flag /\
  char_heating_thresh_temp (self w) = Some c /\
  _unit (self w) = unit.

(** The block on the current mode returns: the action is absent, empty
    or a key of the action table. *)
Definition action_known (ns : State) : bool :=
  match hvac_action (attributes ns) with
  | Some a =>
      (negb (truthy_str a)
       || dict_mem String.eqb a HC_HASS_TO_HOMEKIT_ACTION)%bool
  | None => true
  end.


Definition swing_is (flag : bool) (c : Characteristic Z) (w : World)
  : Prop :=
  _flag_swing (self w) = Assigned flag /\ char_swing (self w) = Assigned c.


Definition set_fan_flag (f : slot bool) (w : World) : World :=
  {| self := with_flag_fan f (self w); calls := calls w;
     logged := logged w; debounce := debounce w |}.

(** [m] returns the same, and leaves the same world but for the fan flag,
    whatever the fan flag is when it starts. *)
Definition fan_flag_blind {A} (m : M World A) : Prop :=
  forall f w,
    fst (m (set_fan_flag f w)) = fst (m w) /\
    set_fan_flag Unassigned (snd (m (set_fan_flag f w)))
    = set_fan_flag Unassigned (snd (m w)).

Definition fan_is (c : Characteristic Q) (mapping : option (list string))
    (w : World) : Prop :=
  char_speed (self w) = Assigned c /\
  speed_mapping (self w) = Assigned mapping.

(** What the block on the speed does to the characteristic. *)
Definition refreshed_speed (ns : State) (mapping : option (list string))
    (c : Characteristic Q) : Characteristic Q :=
  match speed_to_homekit mapping (fan_mode (attributes ns)) with
  | Some v => if Qeq_bool (value c) v then c else set_value v c
  | None => c
  end.

(** The off-like names and the remainder are the two parts of the list
    under the test ["off" in a.lower()]. *)
Definition off_like (a : string) : bool := contains "off" (lower a).

(** The accessory exposes one threshold characteristic, [slot], as its
    single target temperature, and not [other]. *)
Definition exposes_single (s : HeaterCooler) (slot other : char_name)
  : Prop :=
  char_in slot (chars s) = true /\
  char_in other (chars s) = false /\
  (exists c, char_target_temp s = Some c /\ display_name c = slot) /\
  char_cooling_thresh_temp s = None /\
  char_heating_thresh_temp s = None.

(** The accessory exposes both threshold characteristics and no single
    target temperature. *)
Definition exposes_range (s : HeaterCooler) : Prop :=
  char_in CHAR_COOLING_THRESHOLD_TEMPERATURE (chars s) = true /\
  char_in CHAR_HEATING_THRESHOLD_TEMPERATURE (chars s) = true /\
  char_target_temp s = None /\
  (exists c, char_cooling_thresh_temp s = Some c /\
             display_name c = CHAR_COOLING_THRESHOLD_TEMPERATURE) /\
  (exists c, char_heating_thresh_temp s = Some c /\
             display_name c = CHAR_HEATING_THRESHOLD_TEMPERATURE).

(** [v in valid_values.values()] *)
Definition exported (valid : dict string Z) (v : Z) : bool :=
  existsb (fun kv => Z.eqb (snd kv) v) valid.

(** C4 as stated: when the usable-mode set drops a mode, the protocol
    value of that mode is absent from the exported valid values. *)
Definition subsumed_value_absent (modes : list string) : Prop :=
  let usable := usable_modes modes in
  let valid := valid_values_of (hc_homekit_to_hass_of usable) in
  (str_in HVAC_MODE_AUTO modes = true ->
   str_in HVAC_MODE_HEAT_COOL modes = true ->
   str_in HVAC_MODE_HEAT_COOL usable = false /\
   forall v, dict_get String.eqb HVAC_MODE_HEAT_COOL HC_HASS_TO_HOMEKIT
             = Some v -> exported valid v = false) /\
  (str_in HVAC_MODE_COOL modes = true ->
   str_in HVAC_MODE_FAN_ONLY modes = true ->
   str_in HVAC_MODE_FAN_ONLY usable = false /\
   forall v, dict_get String.eqb HVAC_MODE_FAN_ONLY HC_HASS_TO_HOMEKIT
             = Some v -> exported valid v = false).

(** The command a run of [set_cooling_threshold] hands over. *)
Definition cooling_command (s : HeaterCooler) (v low : Q) : service_call :=
  let temperature := temperature_to_states v (_unit s) in
  {| service_name := SERVICE_SET_TEMPERATURE_THERMOSTAT;
     service_data :=
       [(ATTR_ENTITY_ID, PStr (entity_id s));
        (ATTR_TARGET_TEMP_HIGH, PNum temperature);
        (ATTR_TARGET_TEMP_LOW, PNum (temperature_to_states low (_unit s)))];
     log_value := [PStr "cooling threshold "; PNum temperature;
                   PStr (_unit s)] |}.

End Vocabulary.


(** ** Entry points and what they leave fixed *)

Section Entries.
Context `{Imports}.

(** The entry points of an accessory: the setter callbacks, as the
    bodies run, and the refresh. *)
Inductive entry : Type :=
| Set_heat_cool (v : Z)
| Set_active (v : Z)
| Set_cooling_threshold (v : Q)
| Set_heating_threshold (v : Q)
| Set_target_temperature (v : Q)
| Set_swing_mode (v : Z)
| Set_fan_mode (v : Q)
| Update_state (new_state : State).

Definition run (e : entry) : M World unit :=
  match e with
  | Set_heat_cool v => set_heat_cool v
  | Set_active v => set_active v
  | Set_cooling_threshold v => set_cooling_threshold v
  | Set_heating_threshold v => set_heating_threshold v
  | Set_target_temperature v => set_target_temperature v
  | Set_swing_mode v => set_swing_mode v
  | Set_fan_mode v => set_fan_mode v
  | Update_state new_state => update_state new_state
  end.

(** Calls in a row; one that raises leaves the object as it was when it
    raised, and the next call finds it so. *)
Definition run_all (es : list entry) (w : World) : World :=
  fold_left (fun w e => exec (run e) w) es w.

Definition is_write (e : entry) : bool :=
  match e with
  | Update_state _ => false
  | _ => true
  end.

Definition slot_map {A B} (f : A -> B) (x : slot A) : slot B :=
  match x with
  | Assigned a => Assigned (f a)
  | Unassigned => Unassigned
  end.

(** What [__init__] settles: the instance without its flags and without
    the values its characteristics hold. *)
Definition configuration (s : HeaterCooler) : HeaterCooler :=
  Build_HeaterCooler (entity_id s) (_unit s) false false false false
    Unassigned Unassigned (chars s) (speed_mapping s) (_swing_off s)
    (_swing_on s) (hc_homekit_to_hass s)
    (set_value 0 (char_current_heat_cool s))
    (set_value 0 (char_target_heat_cool s))
    (set_value 0 (char_active s))
    (set_value 0%Q (char_current_temp s))
    (set_value 0 (char_display_units s))
    (option_map (set_value 0%Q) (char_target_temp s))
    (option_map (set_value 0%Q) (char_cooling_thresh_temp s))
    (option_map (set_value 0%Q) (char_heating_thresh_temp s))
    (slot_map (set_value 0%Q) (char_speed s))
    (slot_map (set_value 0) (char_swing s)).

(** The commands the setters hand over. *)
Definition mode_command (s : HeaterCooler) (hass_value : string)
  : service_call :=
  {| service_name := SERVICE_SET_HVAC_MODE_THERMOSTAT;
     service_data := [(ATTR_ENTITY_ID, PStr (entity_id s));
                      (ATTR_HVAC_MODE, PStr hass_value)];
     log_value := [PStr hass_value] |}.

Definition heating_command (s : HeaterCooler) (v high : Q) : service_call :=
  let temperature := temperature_to_states v (_unit s) in
  {| service_name := SERVICE_SET_TEMPERATURE_THERMOSTAT;
     service_data :=
       [(ATTR_ENTITY_ID, PStr (entity_id s));
        (ATTR_TARGET_TEMP_HIGH, PNum (temperature_to_states high (_unit s)));
        (ATTR_TARGET_TEMP_LOW, PNum temperature)];
     log_value := [PStr "heating threshold "; PNum temperature;
                   PStr (_unit s)] |}.



(** The bound [get_temperature_range] rounds: the reported one in
    protocol units when it is there and not zero, the default otherwise. *)
Definition reported_bound (x : option Q) (default : Q) (unit : string) : Q :=
  match x with
  | Some t => if truthy_num (Some t) then temperature_to_homekit t unit
              else default
  | None => default
  end.

(** Whether an attribute is assigned, and whether it holds an object. *)
Definition assigned {A} (x : slot A) : bool :=
  match x with
  | Assigned _ => true
  | Unassigned => false
  end.

Definition is_some {A} (x : option A) : bool :=
  match x with
  | Some _ => true
  | None => false
  end.

(** The properties the temperature characteristics are configured with,
    from the attributes of the device. *)
Definition temperature_properties (a : Attributes) (unit : string)
  : Properties :=
  {| PROP_MIN_VALUE :=
       round_half (reported_bound (min_temp a) DEFAULT_MIN_TEMP unit);
     PROP_MAX_VALUE :=
       round_half (reported_bound (max_temp a) DEFAULT_MAX_TEMP unit);
     PROP_MIN_STEP := get_or (target_temp_step a) (1 # 2) |}.

(** The commands, the log and the pending values. *)
Definition outside_is (c : list service_call) (l : Logger)
    (d : dict string Q) (w : World) : Prop :=
  calls w = c /\ logged w = l /\ debounce w = d.

End Entries.

(** ** Proof steps *)

Arguments dict_get : simpl never.
Arguments dict_set : simpl never.
Arguments dict_del : simpl never.
Arguments dict_of : simpl never.
Arguments str_in : simpl never.
Arguments truthy_str : simpl never.
Arguments contains : simpl never.
Arguments lower : simpl never.
Arguments Qeq_bool : simpl never.
Arguments Z.eqb : simpl never.
Arguments HC_HASS_TO_HOMEKIT : simpl never.
Arguments HC_HASS_TO_HOMEKIT_ACTION : simpl never.
Arguments UNIT_HASS_TO_HOMEKIT : simpl never.
Arguments valid_values_of : simpl never.
Arguments hc_homekit_to_hass_of : simpl never.
Arguments usable_modes : simpl never.
Arguments supports : simpl never.
Arguments swing_off_of : simpl never.
Arguments swing_on_of : simpl never.
Arguments round_half : simpl never.

Ltac unfold_step :=
  unfold update_current_temperature, update_target_temperature,
    update_cooling_threshold, update_heating_threshold,
    update_display_units, update_target_mode, update_current_mode,
    update_speed, update_swing, subscript, dict_mem, getattr, value_of,
    assign, _LOGGER, call_service, bind, get, modify, ret, raise, outcome,
    exec in *.

Ltac split_on x :=
  lazymatch x with
  | context [match _ with _ => _ end] => fail
  | _ => destruct x eqn:?; cbn in *;
         rewrite ?andb_false_r, ?andb_true_r in *; cbn in *
  end.

Ltac split_step :=
  repeat match goal with
         | |- context [match ?x with _ => _ end] => split_on x
         | H : context [match ?x with _ => _ end] |- _ => split_on x
         end.

Ltac open_world :=
  repeat match goal with H : _ /\ _ |- _ => destruct H end;
  repeat match goal with w : World |- _ => destruct w as [[] ? ? ?] end;
  cbn in *; subst.

(** Settles a statement about one block of a method by running through
    its branches. *)
Ltac step :=
  intros; unfold leads, returns, returns_on; intros; unfold_step; open_world;
  split_step; try discriminate; try congruence; eauto.

(** Settles a statement about each block of a list. *)
Ltac each tac := repeat (apply Forall_cons; [tac|]); apply Forall_nil.

Ltac blind :=
  intros l w; unfold with_logged; unfold_step; destruct w as [[] ? ? ?];
  cbn; split_step; reflexivity.

Ltac flag_blind :=
  intros f w; unfold set_fan_flag; unfold_step; destruct w as [[] ? ? ?];
  cbn; split_step; split; reflexivity.

Ltac unfold_init :=
  unfold __init__, get_temperature_range, state_attributes, resolve_modes,
    temperature_chars, fan_chars, swing_chars, emit, list_, bind, ret,
    raise, modify in *.

Ltac unfold_setters :=
  unfold run, set_active, set_heat_cool, set_cooling_threshold,
    set_heating_threshold, set_target_temperature, set_swing_mode,
    set_fan_mode in *.

(** * Properties *)

(** ** Reasoning about computations *)

Section Hoare.
Context {S : Type}.

Lemma leads_seq {A B} (P Q R : S -> Prop) (m : M S A) (k : A -> M S B) :
  returns m -> leads P m Q -> (forall a, leads Q (k a) R) ->
  leads P (bind m k) R.
Proof.
  intros Hr Hm Hk s Hs. specialize (Hm s Hs). destruct (Hr s) as [a Ha].
  unfold leads, exec, outcome, bind in *.
  destruct (m s) as [[a'|e] s']; cbn in *.
  - apply Hk. exact Hm.
  - discriminate.
Qed.

Lemma returns_returns_on {A} (P : S -> Prop) (m : M S A) :
  returns m -> returns_on P m.
Proof. intros Hm s _. apply Hm. Qed.

Lemma leads_seq_on {A B} (P Q R : S -> Prop) (m : M S A) (k : A -> M S B) :
  returns_on P m -> leads P m Q -> (forall a, leads Q (k a) R) ->
  leads P (bind m k) R.
Proof.
  intros Hr Hm Hk s Hs. specialize (Hm s Hs). destruct (Hr s Hs) as [a Ha].
  unfold leads, exec, outcome, bind in *.
  destruct (m s) as [[a'|e] s']; cbn in *.
  - apply Hk. exact Hm.
  - discriminate.
Qed.


Lemma keeps_seq {A B} (P : S -> Prop) (m : M S A) (k : A -> M S B) :
  leads P m P -> (forall a, leads P (k a) P) -> leads P (bind m k) P.
Proof.
  intros Hm Hk s Hs. specialize (Hm s Hs).
  unfold leads, exec, bind in *.
  destruct (m s) as [[a'|e] s']; cbn in *.
  - apply Hk. exact Hm.
  - exact Hm.
Qed.

Lemma returns_seq {A B} (m : M S A) (k : A -> M S B) :
  returns m -> (forall a, returns (k a)) -> returns (bind m k).
Proof.
  intros Hm Hk s. destruct (Hm s) as [a Ha].
  unfold outcome, bind in *. destruct (m s) as [[a'|e] s']; cbn in *.
  - apply Hk.
  - discriminate.
Qed.

(** The outcome of a sequence whose first part returns. *)
Lemma outcome_seq {A B} (m : M S A) (k : A -> M S B) (s : S) (a : A) :
  outcome m s = Ok a -> outcome (bind m k) s = outcome (k a) (exec m s).
Proof.
  unfold outcome, exec, bind. destruct (m s) as [[a'|e] s']; cbn.
  - intros E. injection E as ->. reflexivity.
  - discriminate.
Qed.

Lemma exec_seq {A B} (m : M S A) (k : A -> M S B) (s : S) (a : A) :
  outcome m s = Ok a -> exec (bind m k) s = exec (k a) (exec m s).
Proof.
  unfold outcome, exec, bind. destruct (m s) as [[a'|e] s']; cbn.
  - intros E. injection E as ->. reflexivity.
  - discriminate.
Qed.

Lemma outcome_raise {A B} (m : M S A) (k : A -> M S B) (s : S) (e : exn) :
  outcome m s = Raise e -> outcome (bind m k) s = Raise e.
Proof.
  unfold outcome, bind. destruct (m s) as [[a'|e'] s']; cbn.
  - discriminate.
  - intros E. injection E as ->. reflexivity.
Qed.
End Hoare.

(** ** Sequences of blocks *)

Lemma seq_all_cons {S} (m : M S unit) (ms : list (M S unit)) (s : S) :
  seq_all (m :: ms) s = (m ;; seq_all ms) s.
Proof.
  destruct ms as [|m' ms']; [|reflexivity].
  cbn. unfold bind, ret. destruct (m s) as [[[]|e] s']; reflexivity.
Qed.

Lemma exec_seq_all_cons {S} (m : M S unit) (ms : list (M S unit)) (s : S) :
  exec (seq_all (m :: ms)) s = exec (m ;; seq_all ms) s.
Proof. unfold exec. now rewrite seq_all_cons. Qed.

Lemma outcome_seq_all_cons {S} (m : M S unit) (ms : list (M S unit)) (s : S) :
  outcome (seq_all (m :: ms)) s = outcome (m ;; seq_all ms) s.
Proof. unfold outcome. now rewrite seq_all_cons. Qed.

Section Frames.
Context {S : Type}.
Implicit Types (P Q : S -> Prop) (m : M S unit) (ms : list (M S unit)).

Lemma seq_all_keeps P ms :
  Forall (fun m => leads P m P) ms -> leads P (seq_all ms) P.
Proof.
  induction 1 as [|m ms Hm Hms IH].
  - intros s Hs. exact Hs.
  - intros s Hs. rewrite exec_seq_all_cons.
    apply (keeps_seq P m (fun _ => seq_all ms)); auto.
Qed.

Lemma seq_all_returns ms :
  Forall returns ms -> returns (seq_all ms).
Proof.
  induction 1 as [|m ms Hm Hms IH].
  - intros s. exists tt. reflexivity.
  - intros s. rewrite outcome_seq_all_cons.
    apply (returns_seq m (fun _ => seq_all ms)); auto.
Qed.

(** A block that takes [P] to [Q], after blocks that return from [P] and
    keep it, before blocks that keep [Q]. *)
Lemma seq_all_frame P Q (pre : list (M S unit)) m (post : list (M S unit)) :
  Forall (returns_on P) pre -> Forall (fun m' => leads P m' P) pre ->
  returns_on P m -> leads P m Q ->
  Forall (fun m' => leads Q m' Q) post ->
  leads P (seq_all (pre ++ m :: post)) Q.
Proof.
  intros Hr Hk Hrm Hm Hpost. induction pre as [|m0 pre IH]; cbn [app].
  - intros s Hs. rewrite exec_seq_all_cons.
    apply (leads_seq_on P Q Q m (fun _ => seq_all post)); auto.
    intros _. apply seq_all_keeps. exact Hpost.
  - inversion Hr; inversion Hk; subst.
    intros s Hs. rewrite exec_seq_all_cons.
    apply (leads_seq_on P P Q m0 (fun _ => seq_all (pre ++ m :: post))); auto.
Qed.



(** A block that raises from [P], after blocks that keep [P]: the
    sequence raises, there or before. *)
Lemma seq_all_reaches P (pre : list (M S unit)) m (post : list (M S unit))
    (e : exn) :
  Forall (fun m' => leads P m' P) pre ->
  (forall s, P s -> outcome m s = Raise e) ->
  forall s, P s -> exists e', outcome (seq_all (pre ++ m :: post)) s = Raise e'.
Proof.
  intros Hk Hm. induction pre as [|m0 pre IH]; cbn [app]; intros s Hs.
  - exists e. rewrite outcome_seq_all_cons.
    apply outcome_raise. auto.
  - inversion Hk as [|? ? Hk0 Hk']; subst.
    rewrite outcome_seq_all_cons.
    destruct (outcome m0 s) as [[]|e0] eqn:E.
    + rewrite (outcome_seq _ _ _ _ E). apply IH; auto.
    + exists e0. apply outcome_raise. exact E.
Qed.
End Frames.

Section Refresh.
Context `{Imports}.

Lemma update_state_blocks (new_state : State) :
  update_state new_state = seq_all (blocks new_state).
Proof. reflexivity. Qed.

Lemma update_current_temperature_returns ns :
  returns (update_current_temperature ns).
Proof. step. Qed.

Lemma update_target_temperature_returns ns :
  returns (update_target_temperature ns).
Proof. step. Qed.

Lemma update_cooling_threshold_returns ns :
  returns (update_cooling_threshold ns).
Proof. step. Qed.

Lemma update_heating_threshold_returns ns :
  returns (update_heating_threshold ns).
Proof. step. Qed.

Lemma update_display_units_returns : returns update_display_units.
Proof. step. Qed.

Lemma update_target_mode_returns ns : returns (update_target_mode ns).
Proof. step. Qed.

End Refresh.

Create HintDb blocks.

#[global] Hint Resolve update_current_temperature_returns
  update_target_temperature_returns update_cooling_threshold_returns
  update_heating_threshold_returns update_display_units_returns
  update_target_mode_returns : blocks.

(** ** The refresh does not read the log *)

Lemma log_blind_seq {A B} (m : M World A) (k : A -> M World B) :
  log_blind m -> (forall a, log_blind (k a)) -> log_blind (bind m k).
Proof.
  intros Hm Hk l w. unfold bind. rewrite Hm.
  destruct (m w) as [[a|e] w']; cbn.
  - apply Hk.
  - reflexivity.
Qed.

Lemma log_blind_seq_all (ms : list (M World unit)) :
  Forall log_blind ms -> log_blind (seq_all ms).
Proof.
  induction 1 as [|m ms Hm Hms IH]; intros l w.
  - reflexivity.
  - rewrite !seq_all_cons. apply log_blind_seq; auto.
Qed.

Section Mode.
Context `{Imports}.

Lemma update_state_log_blind (ns : State) : log_blind (update_state ns).
Proof.
  rewrite update_state_blocks. apply log_blind_seq_all.
  each blind.
Qed.

Lemma update_target_mode_spec ns flag target active :
  leads (mode_is flag target active) (update_target_mode ns)
    (mode_is false (fst (refreshed_mode ns flag target active))
       (snd (refreshed_mode ns flag target active))).
Proof.
  unfold mode_is, refreshed_mode. step; repeat split; congruence.
Qed.

(** A refresh acts on the mode flag and its characteristics through the
    block on the target mode alone, and reaches it. *)
Lemma update_state_mode ns flag target active :
  leads (mode_is flag target active) (update_state ns)
    (mode_is false (fst (refreshed_mode ns flag target active))
       (snd (refreshed_mode ns flag target active))).
Proof.
  rewrite update_state_blocks.
  apply (seq_all_frame _ _
           [update_current_temperature ns; update_target_temperature ns;
            update_cooling_threshold ns; update_heating_threshold ns;
            update_display_units]
           (update_target_mode ns)
           [update_current_mode ns; update_speed ns; update_swing ns]).
  - each ltac:(apply returns_returns_on; auto with blocks).
  - each ltac:(unfold mode_is; step).
  - apply returns_returns_on; auto with blocks.
  - apply update_target_mode_spec.
  - each ltac:(unfold mode_is; step).
Qed.

End Mode.

(** ** Writes to the target mode *)

Section TargetMode.
Context `{Imports}.

(** C3: a write to the target-mode characteristic of a value that is not
    in the usable set ([value not in self.hc_homekit_to_hass]) returns
    without raising, issues no device command, leaves the instance, and so
    every pending flag, as it was, and logs one record, at level ERROR. *)
Theorem set_heat_cool_rejects_unusable_value (w : World) (v : Z) :
  dict_mem Z.eqb v (hc_homekit_to_hass (self w)) = false ->
  outcome (set_heat_cool v) w = Ok tt /\
  calls (exec (set_heat_cool v) w) = calls w /\
  self (exec (set_heat_cool v) w) = self w /\
  debounce (exec (set_heat_cool v) w) = debounce w /\
  logged (exec (set_heat_cool v) w)
  = logged w ++ [invalid_heat_cool (entity_id (self w)) v] /\
  levelno (invalid_heat_cool (entity_id (self w)) v) = ERROR.
Proof.
  intros Hv. unfold set_heat_cool, outcome, exec, bind, get. cbn.
  rewrite Hv. cbn. repeat split.
Qed.

(** What a write to the target mode does while the active characteristic
    holds 0: it adds a record to the log and nothing else. *)
Lemma set_heat_cool_inactive (w : World) (v : Z) :
  dict_mem Z.eqb v (hc_homekit_to_hass (self w)) = true ->
  value (char_active (self w)) = 0 ->
  set_heat_cool v w
  = (Ok tt,
     with_logged (logged w ++ [heat_cool_inactive (entity_id (self w)) v]) w).
Proof.
  intros Hv Ha. unfold set_heat_cool, bind, get. cbn.
  rewrite Hv, Ha. reflexivity.
Qed.

(** C10: a write to the target-mode characteristic of a usable value
    while the active characteristic holds 0 is dropped: it returns, issues
    no device command, leaves the instance, and so the mode flag, as it
    was, and logs one record at level DEBUG. The next refresh then does
    to the instance what it would have done without the write; with the
    flag clear and a device mode of the reduction table, it sets the
    active characteristic to 1 and the target-mode characteristic to the
    device mode's protocol value. *)
Theorem set_heat_cool_dropped_when_inactive (w : World) (v : Z) :
  dict_mem Z.eqb v (hc_homekit_to_hass (self w)) = true ->
  value (char_active (self w)) = 0 ->
  let w' := exec (set_heat_cool v) w in
  outcome (set_heat_cool v) w = Ok tt /\
  calls w' = calls w /\
  self w' = self w /\
  logged w' = logged w ++ [heat_cool_inactive (entity_id (self w)) v] /\
  levelno (heat_cool_inactive (entity_id (self w)) v) = DEBUG /\
  (forall ns : State,
      outcome (update_state ns) w' = outcome (update_state ns) w /\
      self (exec (update_state ns) w') = self (exec (update_state ns) w)) /\
  (forall (ns : State) (m : Z),
      _flag_heat_cool (self w) = false ->
      truthy_str (state ns) = true ->
      str_in (state ns) [HVAC_MODE_OFF; HVAC_MODE_DRY] = false ->
      dict_get String.eqb (state ns) HC_HASS_TO_HOMEKIT = Some m ->
      value (char_target_heat_cool (self (exec (update_state ns) w'))) = m /\
      value (char_active (self (exec (update_state ns) w'))) = 1 /\
      _flag_heat_cool (self (exec (update_state ns) w')) = false).
Proof.
  intros Hv Ha w'. subst w'. unfold outcome, exec.
  rewrite (set_heat_cool_inactive w v Hv Ha).
  cbn [fst snd with_logged calls self logged].
  do 5 (split; [reflexivity|]). split.
  - intros ns. rewrite update_state_log_blind. split; reflexivity.
  - intros ns m Hflag Ht Hoff Hget. rewrite update_state_log_blind.
    cbn [fst snd with_logged self].
    destruct (update_state_mode ns false (char_target_heat_cool (self w))
                (char_active (self w)) w) as (Hf & Htarget & Hactive).
    { repeat split; (assumption || reflexivity). }
    unfold exec in Hf, Htarget, Hactive. rewrite Hf, Htarget, Hactive.
    unfold refreshed_mode. rewrite Ht, Hoff, Hget. repeat split.
Qed.

End TargetMode.

(** ** Echo suppression, attribute by attribute *)

Section Echo.
Context `{Imports}.


Lemma update_state_cooling_threshold ns flag c unit :
  leads (cooling_is flag c unit) (update_state ns)
    (cooling_is false
       (refreshed (target_temp_high (attributes ns)) flag c unit) unit).
Proof.
  rewrite update_state_blocks.
  apply (seq_all_frame _ _
           [update_current_temperature ns; update_target_temperature ns]
           (update_cooling_threshold ns)
           [update_heating_threshold ns;
            update_display_units; update_target_mode ns;
            update_current_mode ns; update_speed ns; update_swing ns]).
  - each ltac:(apply returns_returns_on; auto with blocks).
  - each ltac:(unfold cooling_is; step).
  - apply returns_returns_on; auto with blocks.
  - unfold cooling_is, refreshed; step.
  - each ltac:(unfold cooling_is; step).
Qed.

Lemma update_state_heating_threshold ns flag c unit :
  leads (heating_is flag c unit) (update_state ns)
    (heating_is false
       (refreshed (target_temp_low (attributes ns)) flag c unit) unit).
Proof.
  rewrite update_state_blocks.
  apply (seq_all_frame _ _
           [update_current_temperature ns; update_target_temperature ns;
            update_cooling_threshold ns]
           (update_heating_threshold ns)
           [update_display_units; update_target_mode ns;
            update_current_mode ns; update_speed ns; update_swing ns]).
  - each ltac:(apply returns_returns_on; auto with blocks).
  - each ltac:(unfold heating_is; step).
  - apply returns_returns_on; auto with blocks.
  - unfold heating_is, refreshed; step.
  - each ltac:(unfold heating_is; step).
Qed.


Lemma cooling_threshold_echo (w : World) (ns1 ns2 : State)
    (c : Characteristic Q) (unit : string) (t : Q) :
  cooling_is true c unit w ->
  target_temp_high (attributes ns2) = PNum t ->
  let w1 := exec (update_state ns1) w in
  let w2 := exec (update_state ns2) w1 in
  cooling_is false c unit w1 /\
  cooling_is false (set_value (temperature_to_homekit t unit) c) unit w2.
Proof.
  intros Hw Ht w1 w2.
  assert (H1 : cooling_is false c unit w1).
  { pose proof (update_state_cooling_threshold ns1 true c unit w Hw) as E.
    unfold refreshed in E.
    destruct (target_temp_high (attributes ns1)); exact E. }
  split; [exact H1|].
  pose proof (update_state_cooling_threshold ns2 false c unit w1 H1) as E.
  unfold refreshed in E. rewrite Ht in E. exact E.
Qed.

Lemma heating_threshold_echo (w : World) (ns1 ns2 : State)
    (c : Characteristic Q) (unit : string) (t : Q) :
  heating_is true c unit w ->
  target_temp_low (attributes ns2) = PNum t ->
  let w1 := exec (update_state ns1) w in
  let w2 := exec (update_state ns2) w1 in
  heating_is false c unit w1 /\
  heating_is false (set_value (temperature_to_homekit t unit) c) unit w2.
Proof.
  intros Hw Ht w1 w2.
  assert (H1 : heating_is false c unit w1).
  { pose proof (update_state_heating_threshold ns1 true c unit w Hw) as E.
    unfold refreshed in E.
    destruct (target_temp_low (attributes ns1)); exact E. }
  split; [exact H1|].
  pose proof (update_state_heating_threshold ns2 false c unit w1 H1) as E.
  unfold refreshed in E. rewrite Ht in E. exact E.
Qed.

Lemma mode_echo (w : World) (ns1 ns2 : State)
    (target active : Characteristic Z) (m : Z) :
  mode_is true target active w ->
  truthy_str (state ns2) = true ->
  str_in (state ns2) [HVAC_MODE_OFF; HVAC_MODE_DRY] = false ->
  dict_get String.eqb (state ns2) HC_HASS_TO_HOMEKIT = Some m ->
  let w1 := exec (update_state ns1) w in
  let w2 := exec (update_state ns2) w1 in
  mode_is false target active w1 /\
  mode_is false (set_value m target) (set_value 1 active) w2.
Proof.
  intros Hw Ht Hoff Hm w1 w2.
  assert (H1 : mode_is false target active w1).
  { exact (update_state_mode ns1 true target active w Hw). }
  split; [exact H1|].
  pose proof (update_state_mode ns2 false target active w1 H1) as E.
  unfold refreshed_mode in E. rewrite Ht, Hoff, Hm in E. exact E.
Qed.

(** *** Swing: the last block, reached when the blocks before it return *)

Lemma update_current_mode_returns ns :
  action_known ns = true -> returns (update_current_mode ns).
Proof. unfold action_known. step. Qed.






End Echo.

(** ** Fan speed *)

Lemma same_but_fan_flag (a b : World) :
  set_fan_flag Unassigned a = set_fan_flag Unassigned b ->
  a = set_fan_flag (_flag_fan (self a)) b.
Proof.
  destruct a as [[] ? ? ?], b as [[] ? ? ?]. unfold set_fan_flag. cbn.
  intros E. injection E. intros. subst. reflexivity.
Qed.

Lemma fan_flag_blind_seq {A B} (m : M World A) (k : A -> M World B) :
  fan_flag_blind m -> (forall a, fan_flag_blind (k a)) ->
  fan_flag_blind (bind m k).
Proof.
  intros Hm Hk f w. unfold bind. destruct (Hm f w) as [E1 E2].
  destruct (m (set_fan_flag f w)) as [[a|e] w1'],
           (m w) as [[a'|e'] w1]; cbn in *; try discriminate.
  - injection E1 as ->. rewrite (same_but_fan_flag _ _ E2). apply Hk.
  - injection E1 as ->. split; [reflexivity | assumption].
Qed.

Lemma fan_flag_blind_seq_all (ms : list (M World unit)) :
  Forall fan_flag_blind ms -> fan_flag_blind (seq_all ms).
Proof.
  induction 1 as [|m ms Hm Hms IH]; intros f w.
  - split; reflexivity.
  - rewrite !seq_all_cons. apply fan_flag_blind_seq; auto.
Qed.

Section Fan.
Context `{Imports}.

(** A refresh that gets to the speed block writes the mapped speed when
    there is one and it differs, whatever the fan flag is, and leaves
    the flag assigned and false. *)
Lemma update_state_speed ns c mapping :
  action_known ns = true ->
  leads (fan_is c mapping) (update_state ns)
    (fun w => fan_is (refreshed_speed ns mapping c) mapping w /\
              _flag_fan (self w) = Assigned false).
Proof.
  intros Ha. rewrite update_state_blocks.
  apply (seq_all_frame _ _
           [update_current_temperature ns; update_target_temperature ns;
            update_cooling_threshold ns; update_heating_threshold ns;
            update_display_units; update_target_mode ns;
            update_current_mode ns]
           (update_speed ns) [update_swing ns]).
  - repeat (apply Forall_cons;
            [try solve [apply returns_returns_on; auto with blocks]|]);
      [ apply returns_returns_on; apply update_current_mode_returns; exact Ha
      | apply Forall_nil ].
  - each ltac:(unfold fan_is; step).
  - unfold fan_is; step.
  - unfold fan_is, refreshed_speed; step.
  - each ltac:(unfold fan_is; step).
Qed.

(** An unknown speed name, one the mapping sends to [None], leaves the
    characteristic as it was. *)
Lemma update_state_unknown_speed ns c mapping (w : World) :
  action_known ns = true ->
  speed_to_homekit mapping (fan_mode (attributes ns)) = None ->
  fan_is c mapping w ->
  char_speed (self (exec (update_state ns) w)) = Assigned c.
Proof.
  intros Ha Hn Hw.
  destruct (update_state_speed ns c mapping Ha w Hw) as [[E _] _].
  unfold refreshed_speed in E. rewrite Hn in E. exact E.
Qed.

Lemma update_state_fan_flag_blind (ns : State) :
  fan_flag_blind (update_state ns).
Proof.
  rewrite update_state_blocks. apply fan_flag_blind_seq_all.
  each flag_blind.
Qed.

(** C9, as the code has it: the refresh never consults the fan flag.
    Whatever the flag holds, set by a write or not, [update_state] returns
    or raises the same and leaves the same fan-speed characteristic; the
    update is decided by the mapped value being there and differing from
    the current one ([update_state_speed]) and by nothing else. *)
Theorem fan_speed_flag_not_consulted (ns : State) (w : World)
    (f : slot bool) :
  outcome (update_state ns) (set_fan_flag f w) = outcome (update_state ns) w /\
  char_speed (self (exec (update_state ns) (set_fan_flag f w)))
  = char_speed (self (exec (update_state ns) w)).
Proof.
  destruct (update_state_fan_flag_blind ns f w) as [E1 E2].
  split; [exact E1|].
  apply (f_equal (fun x => char_speed (self x))) in E2. exact E2.
Qed.

(** *** Refreshes that raise *)

Lemma update_state_raises_without_speed ns (w : World) :
  char_speed (self w) = Unassigned ->
  exists e, outcome (update_state ns) w = Raise e.
Proof.
  rewrite update_state_blocks.
  apply (seq_all_reaches (fun w => char_speed (self w) = Unassigned)
           [update_current_temperature ns; update_target_temperature ns;
            update_cooling_threshold ns; update_heating_threshold ns;
            update_display_units; update_target_mode ns;
            update_current_mode ns]
           (update_speed ns) [update_swing ns] AttributeError).
  - each step.
  - step.
Qed.

Lemma update_state_raises_without_swing_flag ns (w : World) :
  _flag_swing (self w) = Unassigned ->
  exists e, outcome (update_state ns) w = Raise e.
Proof.
  rewrite update_state_blocks.
  apply (seq_all_reaches (fun w => _flag_swing (self w) = Unassigned)
           [update_current_temperature ns; update_target_temperature ns;
            update_cooling_threshold ns; update_heating_threshold ns;
            update_display_units; update_target_mode ns;
            update_current_mode ns; update_speed ns]
           (update_swing ns) [] AttributeError).
  - each step.
  - step.
Qed.

Lemma update_state_raises_without_swing_mode ns (w : World)
    (c : Characteristic Z) :
  swing_mode (attributes ns) = None ->
  swing_is false c w ->
  exists e, outcome (update_state ns) w = Raise e.
Proof.
  intros Hn. rewrite update_state_blocks.
  apply (seq_all_reaches (swing_is false c)
           [update_current_temperature ns; update_target_temperature ns;
            update_cooling_threshold ns; update_heating_threshold ns;
            update_display_units; update_target_mode ns;
            update_current_mode ns; update_speed ns]
           (update_swing ns) [] AttributeError).
  - each ltac:(unfold swing_is; step).
  - unfold swing_is; step.
Qed.

End Fan.

(** ** Construction *)

Section Constructed.
Context `{Imports}.

Lemma str_in_In (x : string) (xs : list string) :
  str_in x xs = true <-> In x xs.
Proof.
  unfold str_in. rewrite existsb_exists. split.
  - intros (y & Hy & E). apply String.eqb_eq in E. subst. exact Hy.
  - intros Hx. exists x. split; [exact Hx | apply String.eqb_refl].
Qed.

Lemma str_in_swing_off (a : string) (swing_modes : list string) :
  In a swing_modes -> str_in a (swing_off_of swing_modes) = off_like a.
Proof.
  intros Ha. unfold swing_off_of. fold off_like.
  destruct (off_like a) eqn:Ea.
  - apply str_in_In. apply filter_In. split; assumption.
  - destruct (str_in a (filter off_like swing_modes)) eqn:E; [|reflexivity].
    apply str_in_In, filter_In in E. destruct E as [_ E]. congruence.
Qed.

Lemma swing_partition (swing_modes : list string) :
  partition off_like swing_modes
  = (swing_off_of swing_modes, swing_on_of swing_modes).
Proof.
  rewrite partition_as_filter. unfold swing_on_of. f_equal.
  apply filter_ext_in. intros a Ha.
  rewrite (str_in_swing_off a swing_modes Ha). reflexivity.
Qed.

(** C5, as the code has it: with the mode list unavailable the
    constructor logs the error and then raises [TypeError], from the call
    of [list] with three arguments; no accessory is constructed. *)
Theorem init_raises_without_modes (hass : Hass) (entity : string)
    (st : State) (l0 : Logger) :
  states_get hass entity = Some st ->
  hvac_modes (attributes st) = None ->
  __init__ hass entity l0
  = (Raise TypeError, l0 ++ [modes_not_available entity]).
Proof.
  intros Hst Hm. unfold_init. rewrite Hst. cbn. rewrite Hm. reflexivity.
Qed.

(** A constructed accessory has no [_flag_swing]. *)
Lemma init_swing_flag (hass : Hass) (entity : string) (l0 l : Logger)
    (s : HeaterCooler) :
  __init__ hass entity l0 = (Ok s, l) -> _flag_swing s = Unassigned.
Proof.
  unfold_init. intros E.
  destruct (states_get hass entity) as [st|]; cbn in E; [|discriminate].
  repeat match type of E with
         | context [match ?x with _ => _ end] =>
             destruct x; cbn in E; try discriminate
         end;
    injection E as <- _; reflexivity.
Qed.

(** The inverse map of a constructed accessory is the one of the usable
    modes of the device's mode list. *)
Lemma init_hc_homekit_to_hass (hass : Hass) (entity : string)
    (l0 l : Logger) (s : HeaterCooler) (st : State) (modes : list string) :
  states_get hass entity = Some st ->
  hvac_modes (attributes st) = Some modes ->
  __init__ hass entity l0 = (Ok s, l) ->
  hc_homekit_to_hass s = hc_homekit_to_hass_of (usable_modes modes).
Proof.
  unfold_init. intros Hst Hm E. rewrite Hst in E. cbn in E.
  rewrite Hm in E.
  repeat match type of E with
         | context [match ?x with _ => _ end] =>
             destruct x; cbn in E; try discriminate
         end;
    injection E as <- _; reflexivity.
Qed.

(** C6, as the code has it: the first refresh of every constructed
    accessory raises, whatever the device reports. [__init__] never
    assigns [_flag_swing], and assigns [char_speed] and [char_swing] only
    with fan and swing support, and [update_state] reads all three. *)
Theorem first_refresh_raises (hass : Hass) (entity : string)
    (l0 l : Logger) (s : HeaterCooler) (ns : State) :
  __init__ hass entity l0 = (Ok s, l) ->
  exists e, outcome (update_state ns) (fresh s l) = Raise e.
Proof.
  intros E. apply update_state_raises_without_swing_flag.
  cbn. exact (init_swing_flag _ _ _ _ _ E).
Qed.

End Constructed.

Section Selection.
Context `{Imports}.

(** C7: with the mode list available the constructor returns an
    accessory such that: with the temperature-range feature both
    threshold characteristics are exposed and no single target
    temperature; otherwise, with the single target temperature feature,
    exactly one threshold characteristic is exposed, the heating one when
    both Heat and Cool are among the modes, with an error logged, the
    cooling one when Cool is and Heat is not, and the heating one when
    Cool is not. *)
Theorem temperature_characteristic_selection (hass : Hass)
    (entity : string) (st : State) (modes : list string) (l0 : Logger) :
  states_get hass entity = Some st ->
  hvac_modes (attributes st) = Some modes ->
  let features := get_or (supported_features (attributes st)) 0 in
  exists s l,
    __init__ hass entity l0 = (Ok s, l) /\
    (supports features SUPPORT_TARGET_TEMPERATURE_RANGE = true ->
     exposes_range s) /\
    (supports features SUPPORT_TARGET_TEMPERATURE_RANGE = false ->
     supports features SUPPORT_TARGET_TEMPERATURE = true ->
     (str_in HVAC_MODE_COOL modes = true ->
      str_in HVAC_MODE_HEAT modes = true ->
      exposes_single s CHAR_HEATING_THRESHOLD_TEMPERATURE
        CHAR_COOLING_THRESHOLD_TEMPERATURE /\
      In (heat_and_cool_single_target entity) l /\
      levelno (heat_and_cool_single_target entity) = ERROR) /\
     (str_in HVAC_MODE_COOL modes = true ->
      str_in HVAC_MODE_HEAT modes = false ->
      exposes_single s CHAR_COOLING_THRESHOLD_TEMPERATURE
        CHAR_HEATING_THRESHOLD_TEMPERATURE) /\
     (str_in HVAC_MODE_COOL modes = false ->
      exposes_single s CHAR_HEATING_THRESHOLD_TEMPERATURE
        CHAR_COOLING_THRESHOLD_TEMPERATURE)).
Proof.
  intros Hst Hm features. unfold_init. rewrite Hst. cbn. rewrite Hm.
  fold features. unfold exposes_range, exposes_single.
  destruct (supports features SUPPORT_TARGET_TEMPERATURE_RANGE) eqn:Hr;
    [|destruct (supports features SUPPORT_TARGET_TEMPERATURE) eqn:Ht;
      [destruct (str_in HVAC_MODE_COOL modes) eqn:Hc;
       [destruct (str_in HVAC_MODE_HEAT modes) eqn:Hh|]|]];
    destruct (supports features SUPPORT_FAN_MODE);
    destruct (supports features SUPPORT_SWING_MODE);
    try destruct (swing_on_of _); try destruct (swing_off_of _);
    cbn; rewrite ?Hr, ?Ht; cbn;
    eexists; eexists; (split; [reflexivity|]); cbn;
    repeat split; intros; try discriminate; eauto;
    try (rewrite !in_app_iff; cbn; tauto).
Qed.

(** C8: with swing support, and the mode list available, the
    constructor returns an accessory that exposes the swing
    characteristic exactly when both parts of the swing-mode list, the
    names that contain "off" in lower case and the remainder, are
    non-empty; it then keeps the first name of each part. Otherwise it
    logs an error and leaves the characteristic out. *)
Theorem swing_characteristic_selection (hass : Hass) (entity : string)
    (st : State) (modes : list string) (l0 : Logger) :
  states_get hass entity = Some st ->
  hvac_modes (attributes st) = Some modes ->
  supports (get_or (supported_features (attributes st)) 0)
    SUPPORT_SWING_MODE = true ->
  let parts :=
    partition off_like (get_or (swing_modes (attributes st)) []) in
  exists s l,
    __init__ hass entity l0 = (Ok s, l) /\
    (char_in CHAR_SWING_MODE (chars s) = true <->
     fst parts <> [] /\ snd parts <> []) /\
    (fst parts <> [] /\ snd parts <> [] ->
     (exists c, char_swing s = Assigned c /\
                display_name c = CHAR_SWING_MODE) /\
     _swing_off s = Assigned (hd EmptyString (fst parts)) /\
     _swing_on s = Assigned (hd EmptyString (snd parts))) /\
    (~ (fst parts <> [] /\ snd parts <> []) ->
     char_swing s = Unassigned /\
     In (could_not_map_swing_modes entity) l /\
     levelno (could_not_map_swing_modes entity) = ERROR).
Proof.
  intros Hst Hm Hs parts. subst parts. rewrite swing_partition.
  unfold_init. rewrite Hst. cbn. rewrite Hm, Hs.
  set (features := get_or (supported_features (attributes st)) 0).
  destruct (supports features SUPPORT_TARGET_TEMPERATURE_RANGE);
    [|destruct (supports features SUPPORT_TARGET_TEMPERATURE);
      [destruct (str_in HVAC_MODE_COOL modes);
       [destruct (str_in HVAC_MODE_HEAT modes)|]|]];
    destruct (supports features SUPPORT_FAN_MODE);
    destruct (swing_on_of _); destruct (swing_off_of _);
    cbn; eexists; eexists; (split; [reflexivity|]); cbn;
    (split; [split; [intros; try discriminate; split; congruence
                    |intros [? ?]; congruence]|]);
    (split; [intros [? ?]; try congruence; repeat split; eauto|]);
    intros Hn; try (exfalso; apply Hn; split; congruence);
    repeat split; try (rewrite !in_app_iff; cbn; tauto).
Qed.

End Selection.

(** ** The usable modes *)

Lemma dict_get_cons {K V} (eqb : K -> K -> bool) (k k' : K) (v' : V)
    (d : dict K V) :
  dict_get eqb k ((k', v') :: d)
  = if eqb k' k then Some v' else dict_get eqb k d.
Proof. reflexivity. Qed.

Lemma dict_set_cons {K V} (eqb : K -> K -> bool) (k k' : K) (v v' : V)
    (d : dict K V) :
  dict_set eqb k v ((k', v') :: d)
  = if eqb k' k then (k', v) :: d else (k', v') :: dict_set eqb k v d.
Proof. reflexivity. Qed.

(** A value found after [d[k] = x] is [x] or was there before. *)
Lemma dict_get_set {K V} (eqb : K -> K -> bool) (k k0 : K) (x s : V)
    (d : dict K V) :
  dict_get eqb k0 (dict_set eqb k x d) = Some s ->
  s = x \/ dict_get eqb k0 d = Some s.
Proof.
  induction d as [|[k' v'] d IH].
  - unfold dict_set. rewrite dict_get_cons.
    destruct (eqb k k0); [|discriminate]. intros E. injection E as <-. auto.
  - rewrite dict_set_cons. destruct (eqb k' k) eqn:E.
    + rewrite !dict_get_cons. destruct (eqb k' k0); auto.
      intros E'. injection E' as <-. auto.
    + rewrite !dict_get_cons. destruct (eqb k' k0); auto.
Qed.

(** [xs.remove(x)] on a list without repetition. *)
Lemma In_remove (x y : string) (xs : list string) :
  NoDup xs -> (In y (remove x xs) <-> In y xs /\ y <> x).
Proof.
  induction 1 as [|z xs Hz Hxs IH]; cbn.
  - tauto.
  - destruct (String.eqb z x) eqn:E.
    + apply String.eqb_eq in E. subst z. split.
      * intros Hy. split; [auto|]. intros ->. contradiction.
      * intros [[->|Hy] Hn]; [contradiction | exact Hy].
    + apply String.eqb_neq in E. cbn. rewrite IH. split.
      * intros [->|[Hy Hn]]; auto.
      * intros [[->|Hy] Hn]; auto.
Qed.

Lemma NoDup_remove_first (x : string) (xs : list string) :
  NoDup xs -> NoDup (remove x xs).
Proof.
  induction 1 as [|z xs Hz Hxs IH]; cbn.
  - constructor.
  - destruct (String.eqb z x); [exact Hxs|].
    constructor; [|exact IH]. rewrite In_remove by exact Hxs. tauto.
Qed.

Section Usable.
Context `{Imports}.

(** Every entry of the inverse map is a usable mode. *)
Lemma hc_homekit_to_hass_usable (usable : list string) (v : Z) (s : string) :
  dict_get Z.eqb v (hc_homekit_to_hass_of usable) = Some s ->
  str_in s usable = true.
Proof.
  unfold hc_homekit_to_hass_of.
  assert (G : forall items d,
             (forall v s, dict_get Z.eqb v d = Some s ->
                          str_in s usable = true) ->
             forall v s,
               dict_get Z.eqb v
                 (fold_left
                    (fun d sc => if str_in (fst sc) usable
                                 then dict_set Z.eqb (snd sc) (fst sc) d
                                 else d) items d) = Some s ->
               str_in s usable = true).
  { induction items as [|[s0 c0] items IH]; intros d Hd v' s'; cbn.
    - apply Hd.
    - apply IH. intros v1 s1. destruct (str_in s0 usable) eqn:E.
      + intros E1. apply dict_get_set in E1. destruct E1 as [->|E1].
        * exact E.
        * eapply Hd. exact E1.
      + apply Hd. }
  apply G. intros v' s' E. discriminate E.
Qed.

(** With seven different constants the reduction table is its display. *)
Lemma distinct_neq (i j : nat) :
  distinct_modes -> (i < 7)%nat -> (j < 7)%nat -> i <> j ->
  nth i [HVAC_MODE_OFF; HVAC_MODE_HEAT; HVAC_MODE_COOL; HVAC_MODE_HEAT_COOL;
         HVAC_MODE_AUTO; HVAC_MODE_DRY; HVAC_MODE_FAN_ONLY] EmptyString
  <> nth j [HVAC_MODE_OFF; HVAC_MODE_HEAT; HVAC_MODE_COOL;
            HVAC_MODE_HEAT_COOL; HVAC_MODE_AUTO; HVAC_MODE_DRY;
            HVAC_MODE_FAN_ONLY] EmptyString.
Proof.
  intros Hd Hi Hj Hij E. apply Hij.
  exact (proj1 (NoDup_nth _ EmptyString) Hd i j Hi Hj E).
Qed.

Lemma dict_set_nil {K V} (eqb : K -> K -> bool) (k : K) (v : V) :
  dict_set eqb k v [] = [(k, v)].
Proof. reflexivity. Qed.

Lemma dict_set_other {K V} (eqb : K -> K -> bool) (k k' : K) (v v' : V)
    (d : dict K V) :
  eqb k' k = false ->
  dict_set eqb k v ((k', v') :: d) = (k', v') :: dict_set eqb k v d.
Proof. intros E. rewrite dict_set_cons, E. reflexivity. Qed.

Lemma HC_HASS_TO_HOMEKIT_items :
  distinct_modes ->
  HC_HASS_TO_HOMEKIT
  = [(HVAC_MODE_HEAT, 1); (HVAC_MODE_COOL, 2); (HVAC_MODE_AUTO, 0);
     (HVAC_MODE_HEAT_COOL, 0); (HVAC_MODE_FAN_ONLY, 2)].
Proof.
  intros Hd.
  pose proof (distinct_neq 1 2 Hd ltac:(lia) ltac:(lia) ltac:(lia)).
  pose proof (distinct_neq 1 4 Hd ltac:(lia) ltac:(lia) ltac:(lia)).
  pose proof (distinct_neq 1 3 Hd ltac:(lia) ltac:(lia) ltac:(lia)).
  pose proof (distinct_neq 1 6 Hd ltac:(lia) ltac:(lia) ltac:(lia)).
  pose proof (distinct_neq 2 4 Hd ltac:(lia) ltac:(lia) ltac:(lia)).
  pose proof (distinct_neq 2 3 Hd ltac:(lia) ltac:(lia) ltac:(lia)).
  pose proof (distinct_neq 2 6 Hd ltac:(lia) ltac:(lia) ltac:(lia)).
  pose proof (distinct_neq 4 3 Hd ltac:(lia) ltac:(lia) ltac:(lia)).
  pose proof (distinct_neq 4 6 Hd ltac:(lia) ltac:(lia) ltac:(lia)).
  pose proof (distinct_neq 3 6 Hd ltac:(lia) ltac:(lia) ltac:(lia)).
  cbn [nth] in *.
  unfold HC_HASS_TO_HOMEKIT, dict_of. cbn [fold_left fst snd].
  repeat first
    [ rewrite dict_set_nil
    | rewrite dict_set_other by (apply String.eqb_neq; assumption) ].
  reflexivity.
Qed.

Lemma HC_HASS_TO_HOMEKIT_has (a : string) :
  distinct_modes ->
  In a [HVAC_MODE_HEAT; HVAC_MODE_COOL; HVAC_MODE_AUTO; HVAC_MODE_HEAT_COOL;
        HVAC_MODE_FAN_ONLY] ->
  dict_mem String.eqb a HC_HASS_TO_HOMEKIT = true.
Proof.
  intros Hd Ha. unfold dict_mem.
  rewrite (HC_HASS_TO_HOMEKIT_items Hd), !dict_get_cons.
  cbn [In] in Ha.
  repeat match goal with
         | |- context [String.eqb ?x a] =>
             destruct (String.eqb_spec x a); [reflexivity|]
         end.
  intuition congruence.
Qed.

(** The inverse map and the valid values, from the usable modes a mode
    list leaves. *)
Lemma hc_homekit_to_hass_of_items (usable : list string) :
  distinct_modes ->
  hc_homekit_to_hass_of usable
  = fold_left
      (fun d sc => if str_in (fst sc) usable
                   then dict_set Z.eqb (snd sc) (fst sc) d else d)
      [(HVAC_MODE_HEAT, 1); (HVAC_MODE_COOL, 2); (HVAC_MODE_AUTO, 0);
       (HVAC_MODE_HEAT_COOL, 0); (HVAC_MODE_FAN_ONLY, 2)] [].
Proof.
  intros Hd. unfold hc_homekit_to_hass_of.
  rewrite (HC_HASS_TO_HOMEKIT_items Hd). reflexivity.
Qed.

Lemma str_in_false (x : string) (xs : list string) :
  str_in x xs = false <-> ~ In x xs.
Proof.
  rewrite <- str_in_In. destruct (str_in x xs); split; congruence.
Qed.

(** What is left of Auto and Heat+Cool, and of Cool and Fan-only, in the
    usable modes of a list without repetition. *)
Lemma usable_modes_subsumption (modes : list string) :
  distinct_modes -> NoDup modes ->
  (str_in HVAC_MODE_AUTO modes = true ->
   str_in HVAC_MODE_HEAT_COOL modes = true ->
   str_in HVAC_MODE_AUTO (usable_modes modes) = true /\
   str_in HVAC_MODE_HEAT_COOL (usable_modes modes) = false) /\
  (str_in HVAC_MODE_COOL modes = true ->
   str_in HVAC_MODE_FAN_ONLY modes = true ->
   str_in HVAC_MODE_COOL (usable_modes modes) = true /\
   str_in HVAC_MODE_FAN_ONLY (usable_modes modes) = false).
Proof.
  intros Hd Hn.
  pose proof (distinct_neq 4 3 Hd ltac:(lia) ltac:(lia) ltac:(lia)) as Nah.
  pose proof (distinct_neq 4 6 Hd ltac:(lia) ltac:(lia) ltac:(lia)) as Naf.
  pose proof (distinct_neq 2 3 Hd ltac:(lia) ltac:(lia) ltac:(lia)) as Nch.
  pose proof (distinct_neq 2 6 Hd ltac:(lia) ltac:(lia) ltac:(lia)) as Ncf.
  pose proof (distinct_neq 6 3 Hd ltac:(lia) ltac:(lia) ltac:(lia)) as Nfh.
  cbn [nth] in *.
  unfold usable_modes.
  set (u0 := filter (fun a => dict_mem String.eqb a HC_HASS_TO_HOMEKIT) modes).
  assert (Hn0 : NoDup u0) by (apply NoDup_filter; exact Hn).
  assert (In0 : forall a,
             In a [HVAC_MODE_HEAT; HVAC_MODE_COOL; HVAC_MODE_AUTO;
                   HVAC_MODE_HEAT_COOL; HVAC_MODE_FAN_ONLY] ->
             str_in a modes = true -> In a u0).
  { intros a Ha Hm. apply filter_In. split.
    - apply str_in_In. exact Hm.
    - apply HC_HASS_TO_HOMEKIT_has; assumption. }
  set (u1 := if (str_in HVAC_MODE_AUTO u0
                 && str_in HVAC_MODE_HEAT_COOL u0)%bool
             then remove HVAC_MODE_HEAT_COOL u0 else u0).
  assert (Hn1 : NoDup u1).
  { subst u1. destruct (str_in HVAC_MODE_AUTO u0 && str_in HVAC_MODE_HEAT_COOL u0)%bool;
      [apply NoDup_remove_first|]; exact Hn0. }
  assert (In1 : forall a, a <> HVAC_MODE_HEAT_COOL -> In a u0 -> In a u1).
  { intros a Ha Hu. subst u1. destruct (str_in HVAC_MODE_AUTO u0 && str_in HVAC_MODE_HEAT_COOL u0)%bool;
      [|exact Hu].
    apply In_remove; auto. }
  assert (Out1 : In HVAC_MODE_AUTO u0 -> In HVAC_MODE_HEAT_COOL u0 ->
                 ~ In HVAC_MODE_HEAT_COOL u1).
  { intros Ia Ib. subst u1.
    rewrite (proj2 (str_in_In _ _) Ia), (proj2 (str_in_In _ _) Ib).
    cbn [andb]. rewrite In_remove by exact Hn0. tauto. }
  clearbody u1.
  set (u2 := if (str_in HVAC_MODE_COOL u1
                 && str_in HVAC_MODE_FAN_ONLY u1)%bool
             then remove HVAC_MODE_FAN_ONLY u1 else u1).
  assert (In2 : forall a, a <> HVAC_MODE_FAN_ONLY -> In a u1 -> In a u2).
  { intros a Ha Hu. subst u2.
    destruct (str_in HVAC_MODE_COOL u1 && str_in HVAC_MODE_FAN_ONLY u1)%bool;
      [|exact Hu].
    apply In_remove; auto. }
  assert (Sub2 : forall a, In a u2 -> In a u1).
  { intros a. subst u2.
    destruct (str_in HVAC_MODE_COOL u1 && str_in HVAC_MODE_FAN_ONLY u1)%bool;
      [|auto].
    intros Ha. apply In_remove in Ha; tauto. }
  assert (Out2 : In HVAC_MODE_COOL u1 -> In HVAC_MODE_FAN_ONLY u1 ->
                 ~ In HVAC_MODE_FAN_ONLY u2).
  { intros Ia Ib. subst u2.
    rewrite (proj2 (str_in_In _ _) Ia), (proj2 (str_in_In _ _) Ib).
    cbn [andb]. rewrite In_remove by exact Hn1. tauto. }
  clearbody u2.
  split; intros Ha Hb.
  - assert (Ia : In HVAC_MODE_AUTO u0) by (apply In0; [cbn [In]; tauto | assumption]).
    assert (Ib : In HVAC_MODE_HEAT_COOL u0) by (apply In0; [cbn [In]; tauto | assumption]).
    split.
    + apply str_in_In. apply In2; auto.
    + apply str_in_false. intros E. apply Sub2 in E. exact (Out1 Ia Ib E).
  - assert (Ia : In HVAC_MODE_COOL u1) by (apply In1; [assumption | apply In0; [cbn [In]; tauto | assumption]]).
    assert (Ib : In HVAC_MODE_FAN_ONLY u1) by (apply In1; [assumption | apply In0; [cbn [In]; tauto | assumption]]).
    split.
    + apply str_in_In. apply In2; auto.
    + apply str_in_false. exact (Out2 Ia Ib).
Qed.

(** C4, as amended: for a mode list without repeated entries, the
    usable-mode set drops Heat+Cool when both Auto and Heat+Cool are
    available, and Fan-only when both Cool and Fan-only are. The dropped
    mode is then the target of no protocol value; its own protocol value,
    0 for Heat+Cool and 2 for Fan-only, stays in the exported valid
    values, where it stands for Auto and for Cool. *)
Theorem subsumed_modes_dropped (modes : list string) :
  distinct_modes -> NoDup modes ->
  let usable := usable_modes modes in
  let homekit_to_hass := hc_homekit_to_hass_of usable in
  let valid := valid_values_of homekit_to_hass in
  (str_in HVAC_MODE_AUTO modes = true ->
   str_in HVAC_MODE_HEAT_COOL modes = true ->
   str_in HVAC_MODE_HEAT_COOL usable = false /\
   (forall v, dict_get Z.eqb v homekit_to_hass <> Some HVAC_MODE_HEAT_COOL) /\
   dict_get Z.eqb 0 homekit_to_hass = Some HVAC_MODE_AUTO /\
   exported valid 0 = true) /\
  (str_in HVAC_MODE_COOL modes = true ->
   str_in HVAC_MODE_FAN_ONLY modes = true ->
   str_in HVAC_MODE_FAN_ONLY usable = false /\
   (forall v, dict_get Z.eqb v homekit_to_hass <> Some HVAC_MODE_FAN_ONLY) /\
   dict_get Z.eqb 2 homekit_to_hass = Some HVAC_MODE_COOL /\
   exported valid 2 = true).
Proof.
  intros Hd Hn usable homekit_to_hass valid.
  destruct (usable_modes_subsumption modes Hd Hn) as [S1 S2].
  fold usable in S1, S2.
  assert (V : forall v s, dict_get Z.eqb v homekit_to_hass = Some s ->
                          str_in s usable = true).
  { intros v s. apply hc_homekit_to_hass_usable. }
  subst valid homekit_to_hass.
  rewrite (hc_homekit_to_hass_of_items usable Hd) in V |- *.
  cbn [fold_left fst snd].
  split; intros Ha Hb.
  - destruct (S1 Ha Hb) as [Ta Fh]. split; [exact Fh|]. split.
    + intros v E. apply V in E. congruence.
    + rewrite Ta, Fh.
      destruct (str_in HVAC_MODE_HEAT usable),
               (str_in HVAC_MODE_COOL usable),
               (str_in HVAC_MODE_FAN_ONLY usable);
        split; vm_compute; reflexivity.
  - destruct (S2 Ha Hb) as [Tc Ff]. split; [exact Ff|]. split.
    + intros v E. apply V in E. congruence.
    + rewrite Tc, Ff.
      destruct (str_in HVAC_MODE_HEAT usable),
               (str_in HVAC_MODE_AUTO usable),
               (str_in HVAC_MODE_HEAT_COOL usable);
        split; vm_compute; reflexivity.
Qed.

End Usable.

(** ** Debounced writes *)

Lemma dict_get_set_same (k : string) (v : Q) (d : dict string Q) :
  dict_get String.eqb k (dict_set String.eqb k v d) = Some v.
Proof.
  induction d as [|[k' v'] d IH].
  - rewrite dict_set_nil, dict_get_cons, String.eqb_refl. reflexivity.
  - rewrite dict_set_cons. destruct (String.eqb k' k) eqn:E.
    + rewrite dict_get_cons, E. reflexivity.
    + rewrite dict_get_cons, E. exact IH.
Qed.

Lemma dict_get_del_same (k : string) (d : dict string Q) :
  dict_get String.eqb k (dict_del String.eqb k d) = None.
Proof.
  unfold dict_del. induction d as [|[k' v'] d IH]; [reflexivity|].
  cbn [filter fst]. destruct (String.eqb k' k) eqn:E; cbn [negb].
  - exact IH.
  - rewrite dict_get_cons, E. exact IH.
Qed.

(** A burst of writes to one setter touches nothing but the pending
    values, and leaves the last written value pending. *)
Lemma debounce_writes_pending (name : string) (vs : list Q) (w : World) :
  exists d,
    debounce_writes name vs w = (Ok tt, with_debounce d w) /\
    (vs = [] -> d = debounce w) /\
    (vs <> [] -> dict_get String.eqb name d = Some (last vs 0%Q)).
Proof.
  revert w. induction vs as [|v vs IH]; intros w.
  - exists (debounce w). split; [destruct w; reflexivity|].
    split; [reflexivity | congruence].
  - cbn [debounce_writes]. unfold bind, debounce_write, modify.
    destruct (IH (with_debounce (dict_set String.eqb name v (debounce w)) w))
      as (d & E & Hnil & Hlast).
    exists d. rewrite E. split; [reflexivity|]. split; [discriminate|].
    intros _. destruct vs as [|v' vs].
    + rewrite (Hnil eq_refl). cbn. apply dict_get_set_same.
    + rewrite Hlast by discriminate. reflexivity.
Qed.

Section Debounce.
Context `{Imports}.

(** What a run of the setter does, with both thresholds exposed. *)
Lemma set_cooling_threshold_run (w : World) (v : Q)
    (heating : Characteristic Q) :
  char_heating_thresh_temp (self w) = Some heating ->
  set_cooling_threshold v w
  = (Ok tt,
     {| self := with_flag_coolingthresh true (self w);
        calls := calls w ++ [cooling_command (self w) v (value heating)];
        logged := logged w ++ [set_cooling_threshold_to (entity_id (self w)) v];
        debounce := debounce w |}).
Proof.
  intros Hh. unfold set_cooling_threshold, bind, get, _LOGGER, assign,
    call_service, value_of, modify, ret. cbn. rewrite Hh. reflexivity.
Qed.

(** C2: N >= 1 writes to the cooling threshold within one debounce
    window, then the expiry of the timer: nothing is sent while the
    window is open, the expiry sends exactly one set-temperature command,
    which carries the last written value as the high bound and the
    current value of the heating-threshold characteristic as the low
    bound, each in device units, and a further expiry sends nothing. *)
Theorem cooling_threshold_debounced (N : nat) (vs : list Q) (w : World)
    (heating : Characteristic Q) :
  (1 <= N)%nat ->
  length vs = N ->
  char_heating_thresh_temp (self w) = Some heating ->
  let burst := debounce_writes "set_cooling_threshold" vs in
  let expiry :=
    debounce_expire "set_cooling_threshold" set_cooling_threshold in
  let command := cooling_command (self w) (last vs 0%Q) (value heating) in
  calls (exec burst w) = calls w /\
  outcome (burst ;; expiry) w = Ok tt /\
  calls (exec (burst ;; expiry) w) = calls w ++ [command] /\
  outcome (burst ;; expiry ;; expiry) w = Ok tt /\
  calls (exec (burst ;; expiry ;; expiry) w) = calls w ++ [command].
Proof.
  intros HN Hlen Hh burst expiry command.
  assert (Hvs : vs <> []) by (intros ->; cbn in Hlen; lia).
  destruct (debounce_writes_pending "set_cooling_threshold" vs w)
    as (d & E & _ & Hlast).
  specialize (Hlast Hvs).
  subst burst expiry command.
  unfold exec, outcome, bind. rewrite E. cbn [fst snd].
  unfold debounce_expire, bind, get, modify. cbn [debounce with_debounce].
  rewrite Hlast.
  rewrite (set_cooling_threshold_run _ _ heating) by exact Hh.
  cbn [fst snd debounce self calls with_debounce].
  rewrite dict_get_del_same. unfold ret. cbn [fst snd calls].
  repeat split.
Qed.

End Debounce.


(** * Further properties of the methods *)

(** ** What a refresh leaves alone, and what it always does *)

Section Quiet.
Context `{Imports}.

Lemma update_state_outside ns c l d :
  leads (outside_is c l d) (update_state ns) (outside_is c l d).
Proof.
  rewrite update_state_blocks. apply seq_all_keeps.
  each ltac:(unfold outside_is; step).
Qed.

(** X1: a refresh hands over no command, writes no log record and
    leaves the pending values alone, whether it returns or raises. *)
Theorem refresh_is_silent (ns : State) (w : World) :
  calls (exec (update_state ns) w) = calls w /\
  logged (exec (update_state ns) w) = logged w /\
  debounce (exec (update_state ns) w) = debounce w.
Proof.
  exact (update_state_outside ns (calls w) (logged w) (debounce w) w
           (conj eq_refl (conj eq_refl eq_refl))).
Qed.

Lemma update_state_clears_mode_flag ns :
  leads (fun _ => True) (update_state ns)
    (fun w => _flag_heat_cool (self w) = false).
Proof.
  rewrite update_state_blocks.
  apply (seq_all_frame _ _
           [update_current_temperature ns; update_target_temperature ns;
            update_cooling_threshold ns; update_heating_threshold ns;
            update_display_units]
           (update_target_mode ns)
           [update_current_mode ns; update_speed ns; update_swing ns]).
  - each ltac:(apply returns_returns_on; auto with blocks).
  - each ltac:(intros ? ?; exact I).
  - apply returns_returns_on; auto with blocks.
  - step.
  - each step.
Qed.

Lemma update_state_clears_cooling_flag ns :
  leads (fun _ => True) (update_state ns)
    (fun w => _flag_coolingthresh (self w) = false).
Proof.
  rewrite update_state_blocks.
  apply (seq_all_frame _ _
           [update_current_temperature ns; update_target_temperature ns]
           (update_cooling_threshold ns)
           [update_heating_threshold ns; update_display_units;
            update_target_mode ns; update_current_mode ns; update_speed ns;
            update_swing ns]).
  - each ltac:(apply returns_returns_on; auto with blocks).
  - each ltac:(intros ? ?; exact I).
  - apply returns_returns_on; auto with blocks.
  - step.
  - each step.
Qed.

Lemma update_state_clears_heating_flag ns :
  leads (fun _ => True) (update_state ns)
    (fun w => _flag_heatingthresh (self w) = false).
Proof.
  rewrite update_state_blocks.
  apply (seq_all_frame _ _
           [update_current_temperature ns; update_target_temperature ns;
            update_cooling_threshold ns]
           (update_heating_threshold ns)
           [update_display_units; update_target_mode ns;
            update_current_mode ns; update_speed ns; update_swing ns]).
  - each ltac:(apply returns_returns_on; auto with blocks).
  - each ltac:(intros ? ?; exact I).
  - apply returns_returns_on; auto with blocks.
  - step.
  - each step.
Qed.

Lemma update_state_clears_temperature_flag ns :
  leads (fun w => char_target_temp (self w) <> None) (update_state ns)
    (fun w => _flag_temperature (self w) = false).
Proof.
  rewrite update_state_blocks.
  apply (seq_all_frame _ _
           [update_current_temperature ns]
           (update_target_temperature ns)
           [update_cooling_threshold ns; update_heating_threshold ns;
            update_display_units; update_target_mode ns;
            update_current_mode ns; update_speed ns; update_swing ns]).
  - each ltac:(apply returns_returns_on; auto with blocks).
  - each step.
  - apply returns_returns_on; auto with blocks.
  - step.
  - each step.
Qed.

(** X2: every refresh, whatever the device reports and whether it
    returns or raises, leaves the mode flag and the two threshold flags
    cleared; it leaves the target-temperature flag cleared when the
    accessory has a target-temperature characteristic. *)
Theorem refresh_clears_flags (ns : State) (w : World) :
  let w' := exec (update_state ns) w in
  _flag_heat_cool (self w') = false /\
  _flag_coolingthresh (self w') = false /\
  _flag_heatingthresh (self w') = false /\
  (char_target_temp (self w) <> None -> _flag_temperature (self w') = false).
Proof.
  cbn zeta. split; [|split; [|split]].
  - exact (update_state_clears_mode_flag ns w I).
  - exact (update_state_clears_cooling_flag ns w I).
  - exact (update_state_clears_heating_flag ns w I).
  - exact (update_state_clears_temperature_flag ns w).
Qed.

(** The current temperature is refreshed before anything can raise. *)
Lemma update_state_current_temperature ns c unit :
  leads (fun w => char_current_temp (self w) = c /\ _unit (self w) = unit)
    (update_state ns)
    (fun w => char_current_temp (self w)
              = match current_temperature (attributes ns) with
                | PNum t => set_value (temperature_to_homekit t unit) c
                | _ => c
                end).
Proof.
  rewrite update_state_blocks.
  apply (seq_all_frame _ _ [] (update_current_temperature ns)
           [update_target_temperature ns; update_cooling_threshold ns;
            update_heating_threshold ns; update_display_units;
            update_target_mode ns; update_current_mode ns; update_speed ns;
            update_swing ns]).
  - apply Forall_nil.
  - apply Forall_nil.
  - apply returns_returns_on; auto with blocks.
  - step.
  - each step.
Qed.

(** X3: the current-temperature characteristic follows the device
    whatever the flags hold: a refresh whose state reports a number sets
    it to that number in protocol units, and any other refresh leaves it
    as it was; this holds also when the refresh raises later. *)
Theorem current_temperature_follows_device (ns : State) (w : World) :
  char_current_temp (self (exec (update_state ns) w))
  = match current_temperature (attributes ns) with
    | PNum t =>
        set_value (temperature_to_homekit t (_unit (self w)))
          (char_current_temp (self w))
    | _ => char_current_temp (self w)
    end.
Proof.
  exact (update_state_current_temperature ns _ _ w (conj eq_refl eq_refl)).
Qed.

End Quiet.


(** ** Blocks that may raise *)

Section Stops.
Context {S : Type}.

Lemma exec_raise {A B} (m : M S A) (k : A -> M S B) (s : S) (e : exn) :
  outcome m s = Raise e -> exec (bind m k) s = exec m s.
Proof.
  unfold outcome, exec, bind. destruct (m s) as [[a'|e'] s']; cbn.
  - discriminate.
  - reflexivity.
Qed.

(** A block that takes [P] to [Q], returning or not, after blocks that
    return from [P] and keep it, before blocks that keep [Q]. *)
Lemma seq_all_frame_any (P Q : S -> Prop) (pre : list (M S unit))
    (m : M S unit) (post : list (M S unit)) :
  Forall (returns_on P) pre -> Forall (fun m' => leads P m' P) pre ->
  leads P m Q ->
  Forall (fun m' => leads Q m' Q) post ->
  leads P (seq_all (pre ++ m :: post)) Q.
Proof.
  intros Hr Hk Hm Hpost. induction pre as [|m0 pre IH]; cbn [app].
  - intros s Hs. rewrite exec_seq_all_cons.
    specialize (Hm s Hs). unfold exec, bind in *.
    destruct (m s) as [[[]|e] s']; cbn in *; [|exact Hm].
    apply (seq_all_keeps Q post Hpost s' Hm).
  - inversion Hr; inversion Hk; subst.
    intros s Hs. rewrite exec_seq_all_cons.
    apply (leads_seq_on P P Q m0 (fun _ => seq_all (pre ++ m :: post))); auto.
Qed.

(** A block that raises [e] from [P], after blocks that return from [P]
    and keep it: the sequence raises [e], and stops there. *)
Lemma seq_all_stops (P Q : S -> Prop) (pre : list (M S unit))
    (m : M S unit) (post : list (M S unit)) (e : exn) :
  Forall (returns_on P) pre -> Forall (fun m' => leads P m' P) pre ->
  (forall s, P s -> outcome m s = Raise e) ->
  leads P m Q ->
  forall s, P s ->
    outcome (seq_all (pre ++ m :: post)) s = Raise e /\
    Q (exec (seq_all (pre ++ m :: post)) s).
Proof.
  intros Hr Hk He Hm. induction pre as [|m0 pre IH]; cbn [app]; intros s Hs.
  - rewrite outcome_seq_all_cons, exec_seq_all_cons.
    rewrite (outcome_raise _ _ _ _ (He s Hs)), (exec_raise _ _ _ _ (He s Hs)).
    split; [reflexivity | exact (Hm s Hs)].
  - inversion Hr as [|? ? Hr0 Hr']; inversion Hk as [|? ? Hk0 Hk']; subst.
    rewrite outcome_seq_all_cons, exec_seq_all_cons.
    destruct (Hr0 s Hs) as [[] E].
    rewrite (outcome_seq _ _ _ _ E), (exec_seq _ _ _ _ E).
    apply IH; auto.
Qed.

End Stops.

Section Action.
Context `{Imports}.

(** X4: a device action outside the action table stops the refresh:
    [update_state] raises [KeyError], and the current-state, speed and
    swing characteristics and the fan and swing flags are as they were. *)
Theorem unknown_action_stops_refresh (ns : State) (w : World) (a : string) :
  hvac_action (attributes ns) = Some a ->
  truthy_str a = true ->
  dict_get String.eqb a HC_HASS_TO_HOMEKIT_ACTION = None ->
  let w' := exec (update_state ns) w in
  outcome (update_state ns) w = Raise KeyError /\
  char_current_heat_cool (self w') = char_current_heat_cool (self w) /\
  char_speed (self w') = char_speed (self w) /\
  char_swing (self w') = char_swing (self w) /\
  _flag_fan (self w') = _flag_fan (self w) /\
  _flag_swing (self w') = _flag_swing (self w).
Proof.
  intros Ha Ht Hn. cbn zeta.
  set (P := fun x : World =>
              char_current_heat_cool (self x) = char_current_heat_cool (self w) /\
              char_speed (self x) = char_speed (self w) /\
              char_swing (self x) = char_swing (self w) /\
              _flag_fan (self x) = _flag_fan (self w) /\
              _flag_swing (self x) = _flag_swing (self w)).
  rewrite update_state_blocks.
  apply (seq_all_stops P P
           [update_current_temperature ns; update_target_temperature ns;
            update_cooling_threshold ns; update_heating_threshold ns;
            update_display_units; update_target_mode ns]
           (update_current_mode ns) [update_speed ns; update_swing ns]
           KeyError).
  - each ltac:(apply returns_returns_on; auto with blocks).
  - subst P. each step.
  - intros s _. unfold outcome, update_current_mode, bind, get.
    cbn. rewrite Ha, Ht. unfold subscript. rewrite Hn. reflexivity.
  - subst P. step.
  - subst P. cbn. repeat split.
Qed.

Lemma update_state_current_mode ns c :
  leads (fun w => char_current_heat_cool (self w) = c) (update_state ns)
    (fun w => char_current_heat_cool (self w)
              = match hvac_action (attributes ns) with
                | Some a =>
                    if truthy_str a then
                      match dict_get String.eqb a HC_HASS_TO_HOMEKIT_ACTION with
                      | Some k => set_value k c
                      | None => c
                      end
                    else c
                | None => c
                end).
Proof.
  rewrite update_state_blocks.
  apply (seq_all_frame_any _ _
           [update_current_temperature ns; update_target_temperature ns;
            update_cooling_threshold ns; update_heating_threshold ns;
            update_display_units; update_target_mode ns]
           (update_current_mode ns) [update_speed ns; update_swing ns]).
  - each ltac:(apply returns_returns_on; auto with blocks).
  - each step.
  - step.
  - each step.
Qed.

(** X5: the current-state characteristic follows the device's action
    whatever the flags hold: an action of the table sets it to the
    table's value, and no action, an empty one or one outside the table
    leaves it as it was. *)
Theorem current_state_follows_action (ns : State) (w : World) :
  char_current_heat_cool (self (exec (update_state ns) w))
  = match hvac_action (attributes ns) with
    | Some a =>
        if truthy_str a then
          match dict_get String.eqb a HC_HASS_TO_HOMEKIT_ACTION with
          | Some k => set_value k (char_current_heat_cool (self w))
          | None => char_current_heat_cool (self w)
          end
        else char_current_heat_cool (self w)
    | None => char_current_heat_cool (self w)
    end.
Proof. exact (update_state_current_mode ns _ w eq_refl). Qed.

End Action.


(** ** A write and the two refreshes after it *)

Section Lifecycle.
Context `{Imports}.

Lemma set_heat_cool_accepted (w : World) (v : Z) (mode : string) :
  dict_get Z.eqb v (hc_homekit_to_hass (self w)) = Some mode ->
  (value (char_active (self w)) =? 0) = false ->
  set_heat_cool v w
  = (Ok tt,
     {| self := with_flag_heat_cool true (self w);
        calls := calls w ++ [mode_command (self w) mode];
        logged := logged w ++ [set_heat_cool_to (entity_id (self w)) v mode];
        debounce := debounce w |}).
Proof.
  intros Hv Ha. unfold set_heat_cool, bind, get, dict_mem, subscript,
    assign, _LOGGER, call_service, modify, ret. cbn.
  rewrite Hv, Ha. cbn. rewrite ?Hv. reflexivity.
Qed.

(** X6: a write to the target mode of a value the accessory maps, while
    the active characteristic is not 0, returns and hands over one
    set-mode command with the mapped device mode. The refresh after it
    leaves the target-mode and active characteristics as they were,
    whatever the device reports, and the refresh after that, on a device
    mode of the reduction table, sets them to the mode's protocol value
    and to 1. *)
Theorem mode_write_then_refreshes (w : World) (v m : Z) (mode : string)
    (ns1 ns2 : State) :
  dict_get Z.eqb v (hc_homekit_to_hass (self w)) = Some mode ->
  value (char_active (self w)) <> 0 ->
  truthy_str (state ns2) = true ->
  str_in (state ns2) [HVAC_MODE_OFF; HVAC_MODE_DRY] = false ->
  dict_get String.eqb (state ns2) HC_HASS_TO_HOMEKIT = Some m ->
  let w0 := exec (set_heat_cool v) w in
  let w1 := exec (update_state ns1) w0 in
  let w2 := exec (update_state ns2) w1 in
  outcome (set_heat_cool v) w = Ok tt /\
  calls w0 = calls w ++ [mode_command (self w) mode] /\
  char_target_heat_cool (self w1) = char_target_heat_cool (self w) /\
  char_active (self w1) = char_active (self w) /\
  char_target_heat_cool (self w2)
  = set_value m (char_target_heat_cool (self w)) /\
  char_active (self w2) = set_value 1 (char_active (self w)).
Proof.
  intros Hv Ha Ht Hoff Hm w0 w1 w2.
  apply Z.eqb_neq in Ha.
  pose proof (set_heat_cool_accepted w v mode Hv Ha) as E.
  assert (H0 : mode_is true (char_target_heat_cool (self w))
                 (char_active (self w)) w0).
  { subst w0. unfold exec. rewrite E. repeat split. }
  destruct (mode_echo w0 ns1 ns2 _ _ m H0 Ht Hoff Hm)
    as [(_ & T1 & A1) (_ & T2 & A2)].
  split; [unfold outcome; rewrite E; reflexivity|].
  split; [subst w0; unfold exec; rewrite E; reflexivity|].
  repeat split; assumption.
Qed.

(** What [set_active(0)] does. *)
Lemma set_active_off (w : World) :
  set_active 0 w
  = (Ok tt,
     {| self := with_flag_heat_cool true (self w);
        calls := calls w ++ [mode_command (self w) HVAC_MODE_OFF];
        logged := logged w ++ [set_active_to (entity_id (self w)) 0];
        debounce := debounce w |}).
Proof. reflexivity. Qed.

(** X7: switching off, [set_active(0)], returns and hands over one
    set-mode command with the off mode, whatever the target-mode and
    active characteristics hold; the refresh after it leaves both
    characteristics as they were, whatever mode the device reports, and
    clears the flag. *)
Theorem power_off_then_refresh (w : World) (ns : State) :
  let w0 := exec (set_active 0) w in
  let w1 := exec (update_state ns) w0 in
  outcome (set_active 0) w = Ok tt /\
  calls w0 = calls w ++ [mode_command (self w) HVAC_MODE_OFF] /\
  calls w1 = calls w0 /\
  char_active (self w1) = char_active (self w) /\
  char_target_heat_cool (self w1) = char_target_heat_cool (self w) /\
  _flag_heat_cool (self w1) = false.
Proof.
  intros w0 w1.
  assert (H0 : mode_is true (char_target_heat_cool (self w))
                 (char_active (self w)) w0).
  { subst w0. unfold exec. rewrite set_active_off. repeat split. }
  destruct (update_state_mode ns true _ _ w0 H0) as (F & T & A).
  destruct (update_state_outside ns (calls w0) (logged w0) (debounce w0) w0)
    as (C & _); [repeat split|].
  split; [reflexivity|]. split; [reflexivity|].
  repeat split; assumption.
Qed.

(** X8: switching on, [set_active(v)] with [v] not 0, is a write to the
    target mode of the value the target-mode characteristic holds: the
    same outcome, the same commands and the same instance, with one log
    record before those of the write. *)
Theorem power_on_reasserts_held_mode (w : World) (v : Z) :
  v <> 0 ->
  let held := value (char_target_heat_cool (self w)) in
  outcome (set_active v) w = outcome (set_heat_cool held) w /\
  self (exec (set_active v) w) = self (exec (set_heat_cool held) w) /\
  calls (exec (set_active v) w) = calls (exec (set_heat_cool held) w) /\
  exists r,
    logged (exec (set_heat_cool held) w) = logged w ++ [r] /\
    logged (exec (set_active v) w)
    = logged w ++ [set_active_to (entity_id (self w)) v; r].
Proof.
  intros Hv held. apply Z.eqb_neq in Hv. subst held.
  unfold set_active, set_heat_cool, outcome, exec, bind, get, dict_mem,
    subscript, assign, _LOGGER, call_service, modify, ret.
  cbn. rewrite Hv. cbn.
  destruct (dict_get Z.eqb (value (char_target_heat_cool (self w)))
              (hc_homekit_to_hass (self w))) as [mode|] eqn:E; cbn.
  - destruct (value (char_active (self w)) =? 0); cbn; rewrite ?E; cbn;
      repeat split; eexists; rewrite <- !app_assoc; split; reflexivity.
  - repeat split; eexists; rewrite <- !app_assoc; split; reflexivity.
Qed.

(** X9: a rejected write does not stand in the way of the next one: a
    write of an unmapped value followed by a write of a mapped one leaves
    the instance and the commands of the second write alone. *)
Theorem retry_after_rejected_write (w : World) (bad good : Z) :
  dict_get Z.eqb bad (hc_homekit_to_hass (self w)) = None ->
  let both := exec (set_heat_cool good) (exec (set_heat_cool bad) w) in
  let alone := exec (set_heat_cool good) w in
  outcome (set_heat_cool good) (exec (set_heat_cool bad) w)
  = outcome (set_heat_cool good) w /\
  self both = self alone /\
  calls both = calls alone.
Proof.
  intros Hb both alone. subst both alone.
  unfold set_heat_cool, outcome, exec, bind, get, dict_mem,
    subscript, assign, _LOGGER, call_service, modify, ret.
  cbn. rewrite Hb. cbn.
  destruct (dict_get Z.eqb good (hc_homekit_to_hass (self w))) eqn:E; cbn;
    [destruct (value (char_active (self w)) =? 0); cbn; rewrite ?E; cbn|];
    repeat split.
Qed.



(** X11: with both threshold characteristics, a run of
    [set_cooling_threshold] is followed by a refresh that leaves the
    cooling characteristic as it was, whatever the device reports, while
    it refreshes the heating characteristic, and then by a refresh that
    sets the cooling characteristic to the reported high bound in
    protocol units. *)
Theorem cooling_threshold_write_then_refreshes (w : World) (v t : Q)
    (cooling heating : Characteristic Q) (ns1 ns2 : State) :
  char_cooling_thresh_temp (self w) = Some cooling ->
  char_heating_thresh_temp (self w) = Some heating ->
  _flag_heatingthresh (self w) = false ->
  target_temp_high (attributes ns2) = PNum t ->
  let w0 := exec (set_cooling_threshold v) w in
  let w1 := exec (update_state ns1) w0 in
  let w2 := exec (update_state ns2) w1 in
  outcome (set_cooling_threshold v) w = Ok tt /\
  char_cooling_thresh_temp (self w1) = Some cooling /\
  char_heating_thresh_temp (self w1)
  = Some (refreshed (target_temp_low (attributes ns1)) false heating
            (_unit (self w))) /\
  char_cooling_thresh_temp (self w2)
  = Some (set_value (temperature_to_homekit t (_unit (self w))) cooling).
Proof.
  intros Hc Hh Hf Ht w0 w1 w2.
  pose proof (set_cooling_threshold_run w v heating Hh) as E.
  assert (H0 : cooling_is true cooling (_unit (self w)) w0).
  { subst w0. unfold exec. rewrite E. repeat split. exact Hc. }
  assert (H0' : heating_is false heating (_unit (self w)) w0).
  { subst w0. unfold exec. rewrite E. repeat split; assumption. }
  destruct (cooling_threshold_echo w0 ns1 ns2 cooling _ t H0 Ht)
    as [(_ & T1 & _) (_ & T2 & _)].
  pose proof (update_state_heating_threshold ns1 _ heating _ w0 H0')
    as (_ & T3 & _).
  split; [unfold outcome; rewrite E; reflexivity|].
  repeat split; assumption.
Qed.

Lemma set_heating_threshold_run (w : World) (v : Q)
    (cooling : Characteristic Q) :
  char_cooling_thresh_temp (self w) = Some cooling ->
  set_heating_threshold v w
  = (Ok tt,
     {| self := with_flag_heatingthresh true (self w);
        calls := calls w ++ [heating_command (self w) v (value cooling)];
        logged := logged w ++ [set_heating_threshold_to (entity_id (self w)) v];
        debounce := debounce w |}).
Proof.
  intros Hh. unfold set_heating_threshold, bind, get, _LOGGER, assign,
    call_service, value_of, modify, ret. cbn. rewrite Hh. reflexivity.
Qed.

(** X12: with both threshold characteristics, a run of
    [set_heating_threshold] returns and hands over one set-temperature
    command that carries both bounds, the written value as the low one
    and the value of the cooling characteristic as the high one, each in
    device units. The refresh after it leaves the heating characteristic
    as it was, whatever the device reports, and the refresh after that
    sets it to the reported low bound in protocol units. *)
Theorem heating_threshold_write_then_refreshes (w : World) (v t : Q)
    (cooling heating : Characteristic Q) (ns1 ns2 : State) :
  char_cooling_thresh_temp (self w) = Some cooling ->
  char_heating_thresh_temp (self w) = Some heating ->
  target_temp_low (attributes ns2) = PNum t ->
  let w0 := exec (set_heating_threshold v) w in
  let w1 := exec (update_state ns1) w0 in
  let w2 := exec (update_state ns2) w1 in
  outcome (set_heating_threshold v) w = Ok tt /\
  calls w0 = calls w ++ [heating_command (self w) v (value cooling)] /\
  char_heating_thresh_temp (self w1) = Some heating /\
  char_heating_thresh_temp (self w2)
  = Some (set_value (temperature_to_homekit t (_unit (self w))) heating).
Proof.
  intros Hc Hh Ht w0 w1 w2.
  pose proof (set_heating_threshold_run w v cooling Hc) as E.
  assert (H0 : heating_is true heating (_unit (self w)) w0).
  { subst w0. unfold exec. rewrite E. repeat split. exact Hh. }
  destruct (heating_threshold_echo w0 ns1 ns2 heating _ t H0 Ht)
    as [(_ & T1 & _) (_ & T2 & _)].
  split; [unfold outcome; rewrite E; reflexivity|].
  split; [subst w0; unfold exec; rewrite E; reflexivity|].
  split; assumption.
Qed.



End Lifecycle.


(** ** Any sequence of calls *)

Section Sequences.
Context `{Imports}.

Lemma run_configuration (e : entry) (c : HeaterCooler) :
  leads (fun w => configuration (self w) = c) (run e)
    (fun w => configuration (self w) = c).
Proof.
  destruct e; cbn [run];
    try (unfold configuration; unfold_setters; step; fail).
  rewrite update_state_blocks. apply seq_all_keeps.
  each ltac:(unfold configuration; step).
Qed.

(** X14: what [__init__] settles stays as it is: after any sequence of
    setter runs and refreshes, returning or raising, the instance has
    the same characteristics, under the same names and with the same
    properties and valid values, the same list [chars], the same mode
    map, swing names, speed mapping, unit and entity; only flags and the
    values the characteristics hold change. *)
Theorem configuration_is_fixed (es : list entry) (w : World) :
  configuration (self (run_all es w)) = configuration (self w).
Proof.
  revert w. induction es as [|e es IH]; intros w; [reflexivity|].
  cbn [run_all fold_left]. fold (run_all es (exec (run e) w)).
  rewrite IH. exact (run_configuration e _ w eq_refl).
Qed.

Lemma run_calls (e : entry) (w : World) :
  exists new,
    calls (exec (run e) w) = calls w ++ new /\
    (length new <= if is_write e then 1 else 0)%nat.
Proof.
  destruct e; cbn [run is_write].
  - unfold set_heat_cool, exec, bind, get, dict_mem, subscript, assign,
      _LOGGER, call_service, modify, ret, raise. cbn.
    destruct (dict_get Z.eqb v (hc_homekit_to_hass (self w))) eqn:E; cbn;
      [destruct (value (char_active (self w)) =? 0); cbn; rewrite ?E; cbn|];
      first [ eexists; split; [reflexivity | cbn; lia]
            | exists []; rewrite app_nil_r; split; [reflexivity | cbn; lia] ].
  - unfold set_active, set_heat_cool, exec, bind, get, dict_mem, subscript,
      assign, _LOGGER, call_service, modify, ret, raise. cbn.
    destruct (v =? 0); cbn;
      [|destruct (dict_get Z.eqb (value (char_target_heat_cool (self w)))
                    (hc_homekit_to_hass (self w))) eqn:E; cbn;
        [destruct (value (char_active (self w)) =? 0); cbn; rewrite ?E; cbn|]];
      first [ eexists; split; [reflexivity | cbn; lia]
            | exists []; rewrite app_nil_r; split; [reflexivity | cbn; lia] ].
  - unfold set_cooling_threshold, exec, bind, get, value_of, assign,
      _LOGGER, call_service, modify, ret, raise. cbn.
    destruct (char_heating_thresh_temp (self w)); cbn;
      first [ eexists; split; [reflexivity | cbn; lia]
            | exists []; rewrite app_nil_r; split; [reflexivity | cbn; lia] ].
  - unfold set_heating_threshold, exec, bind, get, value_of, assign,
      _LOGGER, call_service, modify, ret, raise. cbn.
    destruct (char_cooling_thresh_temp (self w)); cbn;
      first [ eexists; split; [reflexivity | cbn; lia]
            | exists []; rewrite app_nil_r; split; [reflexivity | cbn; lia] ].
  - eexists. split; [reflexivity | cbn; lia].
  - unfold set_swing_mode, exec, bind, get, getattr, assign,
      _LOGGER, call_service, modify, ret, raise. cbn.
    destruct (v =? 1), (_swing_on (self w)), (_swing_off (self w)); cbn;
      first [ eexists; split; [reflexivity | cbn; lia]
            | exists []; rewrite app_nil_r; split; [reflexivity | cbn; lia] ].
  - unfold set_fan_mode, exec, bind, get, getattr, assign,
      _LOGGER, call_service, modify, ret, raise. cbn.
    destruct (speed_mapping (self w)); cbn;
      first [ eexists; split; [reflexivity | cbn; lia]
            | exists []; rewrite app_nil_r; split; [reflexivity | cbn; lia] ].
  - exists []. rewrite app_nil_r. split; [|cbn; lia].
    apply (update_state_outside new_state (calls w) (logged w) (debounce w) w).
    repeat split.
Qed.

(** X15: commands are only ever added, and at most one by each setter
    run: after any sequence of setter runs and refreshes, the commands
    handed over are the ones there before followed by at most as many new
    ones as there were setter runs; refreshes add none. *)
Theorem at_most_one_command_per_write (es : list entry) (w : World) :
  exists new,
    calls (run_all es w) = calls w ++ new /\
    (length new <= length (filter is_write es))%nat.
Proof.
  revert w. induction es as [|e es IH]; intros w.
  - exists []. rewrite app_nil_r. split; [reflexivity | cbn; lia].
  - cbn [run_all fold_left]. fold (run_all es (exec (run e) w)).
    destruct (IH (exec (run e) w)) as (new2 & E2 & L2).
    destruct (run_calls e w) as (new1 & E1 & L1).
    exists (new1 ++ new2). rewrite E2, E1, app_assoc. split; [reflexivity|].
    rewrite length_app. cbn [filter]. destruct (is_write e); cbn [length]; lia.
Qed.

End Sequences.


(** ** What the constructor settles *)

Section Settled.
Context `{Imports}.

(** X16: a constructed accessory is consistent. [chars] lists no
    characteristic twice; the speed characteristic and the speed mapping
    are assigned exactly when [chars] lists the rotation speed; the
    swing characteristic and both swing names are assigned exactly when
    [chars] lists the swing mode; the two threshold characteristics are
    there together or not at all, and never beside a target-temperature
    characteristic, whose name [chars] lists; and no flag is set. *)
Theorem constructed_accessory_is_consistent (hass : Hass) (entity : string)
    (l0 l : Logger) (s : HeaterCooler) :
  __init__ hass entity l0 = (Ok s, l) ->
  NoDup (chars s) /\
  assigned (char_speed s) = char_in CHAR_ROTATION_SPEED (chars s) /\
  assigned (speed_mapping s) = char_in CHAR_ROTATION_SPEED (chars s) /\
  assigned (char_swing s) = char_in CHAR_SWING_MODE (chars s) /\
  assigned (_swing_on s) = char_in CHAR_SWING_MODE (chars s) /\
  assigned (_swing_off s) = char_in CHAR_SWING_MODE (chars s) /\
  is_some (char_cooling_thresh_temp s)
  = is_some (char_heating_thresh_temp s) /\
  (is_some (char_target_temp s) = true ->
   is_some (char_cooling_thresh_temp s) = false) /\
  (forall c, char_target_temp s = Some c ->
             char_in (display_name c) (chars s) = true) /\
  _flag_heat_cool s = false /\ _flag_temperature s = false /\
  _flag_coolingthresh s = false /\ _flag_heatingthresh s = false /\
  _flag_fan s = Unassigned /\ _flag_swing s = Unassigned.
Proof.
  intros E.
  destruct (states_get hass entity) as [st|] eqn:Hst;
    [|unfold_init; rewrite Hst in E; discriminate].
  unfold_init. rewrite Hst in E. cbn in E.
  split_step; try discriminate;
    injection E as <- <-; cbn;
    (split; [repeat (constructor; [cbn; intuition discriminate|]);
             constructor|]);
    repeat split; intros; try discriminate;
    try match goal with
        | H : Some _ = Some _ |- _ => injection H as <-; reflexivity
        end.
Qed.



(** X18: the temperature characteristics of a constructed accessory
    carry the device's range: each threshold characteristic, and the
    target-temperature characteristic, is configured with the reported
    minimum and maximum in protocol units, rounded to halves, and the
    reported step, one half when there is none. A reported bound of zero
    counts as missing: the default bound takes its place. *)
Theorem temperature_characteristics_carry_range (hass : Hass)
    (entity : string) (st : State) (l0 l : Logger) (s : HeaterCooler) :
  states_get hass entity = Some st ->
  __init__ hass entity l0 = (Ok s, l) ->
  let expected :=
    Some (temperature_properties (attributes st) (temperature_unit hass)) in
  (forall c, char_cooling_thresh_temp s = Some c -> properties c = expected) /\
  (forall c, char_heating_thresh_temp s = Some c -> properties c = expected) /\
  (forall c, char_target_temp s = Some c -> properties c = expected) /\
  (forall q, min_temp (attributes st) = Some q -> (q == 0)%Q ->
             PROP_MIN_VALUE
               (temperature_properties (attributes st) (temperature_unit hass))
             = round_half DEFAULT_MIN_TEMP) /\
  (forall q, max_temp (attributes st) = Some q -> (q == 0)%Q ->
             PROP_MAX_VALUE
               (temperature_properties (attributes st) (temperature_unit hass))
             = round_half DEFAULT_MAX_TEMP).
Proof.
  intros Hst E expected. subst expected.
  split; [|split; [|split; [|split]]].
  4,5: intros q Hq Hz; unfold temperature_properties, reported_bound;
    cbn [PROP_MIN_VALUE PROP_MAX_VALUE]; rewrite Hq; unfold truthy_num;
    apply Qeq_bool_iff in Hz; rewrite Hz; reflexivity.
  all: intros c Hc; unfold temperature_properties, reported_bound;
    unfold_init; rewrite Hst in E; cbn in E |- *;
    set (lo := round_half _) in *; set (hi := round_half _) in *;
    clearbody lo hi;
    split_step; try discriminate; injection E as <- <-; cbn in Hc;
    try discriminate; injection Hc as <-; reflexivity.
Qed.

End Settled.

(** ** The mode map of a constructed accessory *)

Section Dictionaries.
Context {K V : Type} (eqb : K -> K -> bool).
Hypothesis eqb_eq : forall a b, eqb a b = true <-> a = b.

Lemma dict_set_In (k k0 : K) (v v0 : V) (d : dict K V) :
  In (k0, v0) (dict_set eqb k v d) -> (k0 = k /\ v0 = v) \/ In (k0, v0) d.
Proof.
  induction d as [|[k' v'] d IH]; [|rewrite dict_set_cons].
  - change (dict_set eqb k v []) with [(k, v)]. intros [E|[]]. injection E as <- <-. left. split; reflexivity.
  - destruct (eqb k' k) eqn:Ek.
    + apply eqb_eq in Ek. subst k'. intros [E|I].
      * injection E as <- <-. left. split; reflexivity.
      * right. right. exact I.
    + intros [E|I].
      * right. left. exact E.
      * destruct (IH I) as [L|R]; [left; exact L | right; right; exact R].
Qed.

Lemma dict_of_In (items : list (K * V)) (k : K) (v : V) :
  In (k, v) (dict_of eqb items) -> In (k, v) items.
Proof.
  unfold dict_of.
  assert (G : forall acc,
             In (k, v) (fold_left (fun d kv => dict_set eqb (fst kv) (snd kv) d)
                          items acc) ->
             In (k, v) acc \/ In (k, v) items).
  { induction items as [|[k' v'] items IH]; intros acc I; cbn in *.
    - left. exact I.
    - destruct (IH _ I) as [L|R]; [|right; right; exact R].
      apply dict_set_In in L. destruct L as [[-> ->]|L].
      + right. left. reflexivity.
      + left. exact L. }
  intros I. destruct (G [] I) as [[]|R]. exact R.
Qed.

Lemma dict_get_In (k : K) (v : V) (d : dict K V) :
  dict_get eqb k d = Some v -> In (k, v) d.
Proof.
  induction d as [|[k' v'] d IH]; [discriminate|rewrite dict_get_cons].
  destruct (eqb k' k) eqn:Ek.
  - apply eqb_eq in Ek. subst k'. intros E. injection E as ->.
    left. reflexivity.
  - intros E. right. exact (IH E).
Qed.

Lemma dict_get_set_eq (k k0 : K) (x : V) (d : dict K V) :
  dict_get eqb k0 (dict_set eqb k x d)
  = if eqb k k0 then Some x else dict_get eqb k0 d.
Proof.
  induction d as [|[k' v'] d IH].
  - reflexivity.
  - rewrite dict_set_cons, dict_get_cons.
    destruct (eqb k' k) eqn:Ek; rewrite dict_get_cons.
    + apply eqb_eq in Ek. subst k'. destruct (eqb k k0); reflexivity.
    + destruct (eqb k' k0) eqn:Ek0; [|exact IH].
      destruct (eqb k k0) eqn:E; [|reflexivity].
      apply eqb_eq in Ek0, E. subst k' k0.
      rewrite (proj2 (eqb_eq k k) eq_refl) in Ek. discriminate.
Qed.

Lemma dict_set_keys (k : K) (v : V) (d : dict K V) :
  NoDup (map fst d) -> NoDup (map fst (dict_set eqb k v d)).
Proof.
  induction d as [|[k' v'] d IH]; intros N.
  - constructor; [intros []|constructor].
  - rewrite dict_set_cons. cbn [map fst] in N.
    inversion N as [|? ? Nin N']; subst.
    destruct (eqb k' k) eqn:Ek; cbn [map fst].
    + constructor; assumption.
    + constructor; [|exact (IH N')].
      intros I. apply in_map_iff in I. destruct I as [[k1 v1] [E I]].
      cbn in E. subst k1. apply dict_set_In in I.
      destruct I as [[-> _]|I].
      * assert (T : eqb k k = true) by (apply eqb_eq; reflexivity).
        congruence.
      * apply Nin. apply in_map_iff. exists (k', v1). split; [reflexivity|exact I].
Qed.

Lemma dict_of_keys (items : list (K * V)) :
  NoDup (map fst (dict_of eqb items)).
Proof.
  unfold dict_of.
  assert (G : forall acc, NoDup (map fst acc) ->
             NoDup (map fst (fold_left
                       (fun d kv => dict_set eqb (fst kv) (snd kv) d)
                       items acc))).
  { induction items as [|kv items IH]; intros acc N; cbn; [exact N|].
    apply IH. apply dict_set_keys. exact N. }
  apply G. constructor.
Qed.

Lemma dict_In_get (k : K) (v : V) (d : dict K V) :
  NoDup (map fst d) -> In (k, v) d -> dict_get eqb k d = Some v.
Proof.
  induction d as [|[k' v'] d IH]; cbn [map fst]; intros N I;
    [destruct I|].
  rewrite dict_get_cons.
  inversion N as [|? ? Nin N']; subst.
  destruct I as [E|I].
  - injection E as -> ->.
    assert (T : eqb k k = true) by (apply eqb_eq; reflexivity).
    rewrite T. reflexivity.
  - destruct (eqb k' k) eqn:Ek.
    + apply eqb_eq in Ek. subst k'. exfalso. apply Nin.
      apply in_map_iff. exists (k, v). split; [reflexivity|exact I].
    + exact (IH N' I).
Qed.

End Dictionaries.

Section Maps.
Context `{Imports}.

Lemma remove_sub (x y : string) (xs : list string) :
  In y (remove x xs) -> In y xs.
Proof.
  induction xs as [|z xs IH]; cbn [remove]; [intros []|].
  destruct (String.eqb z x); intros I.
  - right. exact I.
  - destruct I as [E|I]; [left; exact E | right; exact (IH I)].
Qed.

Lemma usable_modes_sub (modes : list string) (a : string) :
  In a (usable_modes modes) ->
  In a modes /\ dict_mem String.eqb a HC_HASS_TO_HOMEKIT = true.
Proof.
  unfold usable_modes.
  set (u0 := filter _ modes).
  set (u1 := if (str_in HVAC_MODE_AUTO u0
                 && str_in HVAC_MODE_HEAT_COOL u0)%bool
             then remove HVAC_MODE_HEAT_COOL u0 else u0).
  assert (S1 : In a u1 -> In a u0).
  { subst u1. destruct (_ && _)%bool; [apply remove_sub|auto]. }
  clearbody u1. intros I.
  apply (proj1 (filter_In
                  (fun a => dict_mem String.eqb a HC_HASS_TO_HOMEKIT) a modes)).
  apply S1. revert I.
  destruct (_ && _)%bool; [apply remove_sub|auto].
Qed.

(** The entries of the inverse map come from the reduction table. *)
Lemma hc_homekit_to_hass_of_entry (usable : list string) (v : Z)
    (mode : string) :
  dict_get Z.eqb v (hc_homekit_to_hass_of usable) = Some mode ->
  dict_get String.eqb mode HC_HASS_TO_HOMEKIT = Some v /\
  str_in mode usable = true.
Proof.
  unfold hc_homekit_to_hass_of.
  assert (G : forall items acc,
             dict_get Z.eqb v
               (fold_left
                  (fun d sc => if str_in (fst sc) usable
                               then dict_set Z.eqb (snd sc) (fst sc) d else d)
                  items acc) = Some mode ->
             dict_get Z.eqb v acc = Some mode \/
             (In (mode, v) items /\ str_in mode usable = true)).
  { induction items as [|[s c] items IH]; intros acc E; cbn in *.
    - left. exact E.
    - destruct (IH _ E) as [L|[R1 R2]]; [|right; split; [right|]; assumption].
      destruct (str_in s usable) eqn:Es; [|left; exact L].
      rewrite (dict_get_set_eq Z.eqb Z.eqb_eq) in L.
      destruct (Z.eqb c v) eqn:Ec; [|left; exact L].
      apply Z.eqb_eq in Ec. subst c. injection L as ->.
      right. split; [left; reflexivity | exact Es]. }
  intros E. destruct (G _ _ E) as [L|[R1 R2]]; [discriminate L|].
  split; [|exact R2].
  apply (dict_In_get String.eqb String.eqb_eq); [|exact R1].
  apply (dict_of_keys String.eqb String.eqb_eq).
Qed.

Lemma HC_HASS_TO_HOMEKIT_values (mode : string) (v : Z) :
  dict_get String.eqb mode HC_HASS_TO_HOMEKIT = Some v ->
  v = 0 \/ v = 1 \/ v = 2.
Proof.
  intros E. apply (dict_get_In String.eqb String.eqb_eq) in E.
  apply (dict_of_In String.eqb String.eqb_eq) in E.
  cbn [In] in E.
  repeat match type of E with
         | _ \/ _ => destruct E as [E|E]
         | (_, _) = (_, _) => injection E as _ <-
         | False => destruct E
         end; tauto.
Qed.

Lemma HC_HASS_TO_HOMEKIT_keys (a : string) :
  dict_mem String.eqb a HC_HASS_TO_HOMEKIT = true ->
  In a [HVAC_MODE_HEAT; HVAC_MODE_COOL; HVAC_MODE_AUTO; HVAC_MODE_HEAT_COOL;
        HVAC_MODE_FAN_ONLY].
Proof.
  unfold dict_mem.
  destruct (dict_get String.eqb a HC_HASS_TO_HOMEKIT) as [v|] eqn:E;
    [intros _|discriminate].
  apply (dict_get_In String.eqb String.eqb_eq) in E.
  apply (dict_of_In String.eqb String.eqb_eq) in E.
  cbn [In] in *.
  repeat match type of E with
         | _ \/ _ => destruct E as [E|E]
         | (_, _) = (_, _) => injection E as <- _
         | False => destruct E
         end; tauto.
Qed.

(** The usable modes of a list without repeated entries: the listed
    modes of the reduction table, without Heat+Cool when Auto is listed
    and without Fan-only when Cool is. *)
Lemma usable_modes_In (modes : list string) (a : string) :
  distinct_modes -> NoDup modes ->
  (In a (usable_modes modes) <->
   In a modes /\ dict_mem String.eqb a HC_HASS_TO_HOMEKIT = true /\
   ~ (a = HVAC_MODE_HEAT_COOL /\ In HVAC_MODE_AUTO modes) /\
   ~ (a = HVAC_MODE_FAN_ONLY /\ In HVAC_MODE_COOL modes)).
Proof.
  intros Hd Hn.
  pose proof (distinct_neq 4 3 Hd ltac:(lia) ltac:(lia) ltac:(lia)) as Nah.
  pose proof (distinct_neq 2 3 Hd ltac:(lia) ltac:(lia) ltac:(lia)) as Nch.
  pose proof (distinct_neq 2 6 Hd ltac:(lia) ltac:(lia) ltac:(lia)) as Ncf.
  cbn [nth] in *.
  assert (T : forall b,
             In b [HVAC_MODE_HEAT; HVAC_MODE_COOL; HVAC_MODE_AUTO;
                   HVAC_MODE_HEAT_COOL; HVAC_MODE_FAN_ONLY] ->
             dict_mem String.eqb b HC_HASS_TO_HOMEKIT = true).
  { intros b. apply HC_HASS_TO_HOMEKIT_has. exact Hd. }
  pose proof (T HVAC_MODE_AUTO ltac:(cbn [In]; tauto)) as Ta.
  pose proof (T HVAC_MODE_COOL ltac:(cbn [In]; tauto)) as Tc.
  unfold usable_modes.
  set (u0 := filter (fun a => dict_mem String.eqb a HC_HASS_TO_HOMEKIT) modes).
  assert (Hn0 : NoDup u0) by (apply NoDup_filter; exact Hn).
  assert (I0 : forall b, In b u0 <->
                 In b modes /\ dict_mem String.eqb b HC_HASS_TO_HOMEKIT = true).
  { intros b. apply filter_In. }
  set (u1 := if (str_in HVAC_MODE_AUTO u0
                 && str_in HVAC_MODE_HEAT_COOL u0)%bool
             then remove HVAC_MODE_HEAT_COOL u0 else u0).
  assert (Hn1 : NoDup u1).
  { subst u1. destruct (_ && _)%bool; [apply NoDup_remove_first|]; exact Hn0. }
  assert (I1 : forall b, In b u1 <->
                 In b u0 /\ ~ (b = HVAC_MODE_HEAT_COOL /\ In HVAC_MODE_AUTO u0)).
  { intros b. subst u1.
    destruct (str_in HVAC_MODE_AUTO u0) eqn:Ea;
      [destruct (str_in HVAC_MODE_HEAT_COOL u0) eqn:Eh|]; cbn [andb].
    - apply str_in_In in Ea. rewrite In_remove by exact Hn0. tauto.
    - apply str_in_false in Eh. split; [|tauto].
      intros Ib. split; [exact Ib|]. intros [-> _]. exact (Eh Ib).
    - apply str_in_false in Ea. tauto. }
  clearbody u1.
  assert (I2 : In a (if (str_in HVAC_MODE_COOL u1
                         && str_in HVAC_MODE_FAN_ONLY u1)%bool
                     then remove HVAC_MODE_FAN_ONLY u1 else u1) <->
               In a u1 /\ ~ (a = HVAC_MODE_FAN_ONLY /\ In HVAC_MODE_COOL u1)).
  { destruct (str_in HVAC_MODE_COOL u1) eqn:Ec;
      [destruct (str_in HVAC_MODE_FAN_ONLY u1) eqn:Ef|]; cbn [andb].
    - apply str_in_In in Ec. rewrite In_remove by exact Hn1. tauto.
    - apply str_in_false in Ef. split; [|tauto].
      intros Ib. split; [exact Ib|]. intros [-> _]. exact (Ef Ib).
    - apply str_in_false in Ec. tauto. }
  rewrite I2, !I1, !I0. clear - Ta Tc Nch. intuition congruence.
Qed.

(** X19: on a mode list without repeated entries, each listed mode of
    the reduction table can be selected, unless it is Heat+Cool beside
    Auto or Fan-only beside Cool: its protocol value is exported as
    valid, and the mode map takes that value back to the mode. *)
Theorem listed_modes_selectable (modes : list string) (mode : string) (v : Z) :
  distinct_modes -> NoDup modes ->
  In mode modes ->
  dict_get String.eqb mode HC_HASS_TO_HOMEKIT = Some v ->
  ~ (mode = HVAC_MODE_HEAT_COOL /\ In HVAC_MODE_AUTO modes) ->
  ~ (mode = HVAC_MODE_FAN_ONLY /\ In HVAC_MODE_COOL modes) ->
  let homekit_to_hass := hc_homekit_to_hass_of (usable_modes modes) in
  dict_get Z.eqb v homekit_to_hass = Some mode /\
  exported (valid_values_of homekit_to_hass) v = true.
Proof.
  intros Hd Hn Im Ev N1 N2 homekit_to_hass. subst homekit_to_hass.
  assert (Mm : dict_mem String.eqb mode HC_HASS_TO_HOMEKIT = true)
    by (unfold dict_mem; rewrite Ev; reflexivity).
  pose proof (HC_HASS_TO_HOMEKIT_keys mode Mm) as Km.
  assert (U : forall a, In a (usable_modes modes) <-> _)
    by (intros a; exact (usable_modes_In modes a Hd Hn)).
  assert (Um : str_in mode (usable_modes modes) = true).
  { apply str_in_In. apply U. tauto. }
  assert (X1 : In HVAC_MODE_AUTO (usable_modes modes) ->
               ~ In HVAC_MODE_HEAT_COOL (usable_modes modes)).
  { rewrite !U. tauto. }
  assert (X2 : In HVAC_MODE_COOL (usable_modes modes) ->
               ~ In HVAC_MODE_FAN_ONLY (usable_modes modes)).
  { rewrite !U. tauto. }
  rewrite <- !str_in_In in X1, X2.
  set (usable := usable_modes modes) in *. clearbody usable.
  rewrite (HC_HASS_TO_HOMEKIT_items Hd) in Ev.
  rewrite (hc_homekit_to_hass_of_items usable Hd).
  pose proof (fun i j a b c => distinct_neq i j Hd a b c) as D.
  pose proof (D 1%nat 2%nat ltac:(lia) ltac:(lia) ltac:(lia)) as D12.
  pose proof (D 1%nat 3%nat ltac:(lia) ltac:(lia) ltac:(lia)) as D13.
  pose proof (D 1%nat 4%nat ltac:(lia) ltac:(lia) ltac:(lia)) as D14.
  pose proof (D 1%nat 6%nat ltac:(lia) ltac:(lia) ltac:(lia)) as D16.
  pose proof (D 2%nat 3%nat ltac:(lia) ltac:(lia) ltac:(lia)) as D23.
  pose proof (D 2%nat 4%nat ltac:(lia) ltac:(lia) ltac:(lia)) as D24.
  pose proof (D 2%nat 6%nat ltac:(lia) ltac:(lia) ltac:(lia)) as D26.
  pose proof (D 3%nat 4%nat ltac:(lia) ltac:(lia) ltac:(lia)) as D34.
  pose proof (D 3%nat 6%nat ltac:(lia) ltac:(lia) ltac:(lia)) as D36.
  pose proof (D 4%nat 6%nat ltac:(lia) ltac:(lia) ltac:(lia)) as D46.
  cbn [nth] in *. clear D.
  rewrite !dict_get_cons in Ev.
  cbn [In] in Km.
  cbn [fold_left fst snd].
  destruct Km as [<-|[<-|[<-|[<-|[<-|[]]]]]];
    repeat match type of Ev with
           | context [String.eqb ?a ?a] => rewrite String.eqb_refl in Ev
           | context [String.eqb ?a ?b] =>
               replace (String.eqb a b) with false in Ev
                 by (symmetry; apply String.eqb_neq; congruence)
           end;
    injection Ev as <-; rewrite Um in *;
    destruct (str_in HVAC_MODE_HEAT usable) eqn:?,
             (str_in HVAC_MODE_COOL usable) eqn:?,
             (str_in HVAC_MODE_AUTO usable) eqn:?,
             (str_in HVAC_MODE_HEAT_COOL usable) eqn:?,
             (str_in HVAC_MODE_FAN_ONLY usable) eqn:?;
    try discriminate;
    try (exfalso; apply X1; reflexivity);
    try (exfalso; apply X2; reflexivity);
    split; vm_compute; reflexivity.
Qed.

(** X20: every set-mode command a mode write hands over names a mode
    the device lists, and one whose protocol value in the reduction
    table is the value written. *)
Theorem mode_commands_name_listed_modes (hass : Hass) (entity : string)
    (st : State) (modes : list string) (l0 l : Logger) (s : HeaterCooler)
    (w : World) (v : Z) :
  states_get hass entity = Some st ->
  hvac_modes (attributes st) = Some modes ->
  __init__ hass entity l0 = (Ok s, l) ->
  hc_homekit_to_hass (self w) = hc_homekit_to_hass s ->
  calls (exec (set_heat_cool v) w) = calls w \/
  exists mode,
    calls (exec (set_heat_cool v) w)
    = calls w ++ [mode_command (self w) mode] /\
    In mode modes /\
    dict_get String.eqb mode HC_HASS_TO_HOMEKIT = Some v.
Proof.
  intros Hst Hm E Hw.
  rewrite (init_hc_homekit_to_hass _ _ _ _ _ _ _ Hst Hm E) in Hw.
  unfold set_heat_cool, exec, bind, get, dict_mem, subscript, assign,
    _LOGGER, call_service, modify, ret, raise. cbn.
  destruct (dict_get Z.eqb v (hc_homekit_to_hass (self w))) as [mode|] eqn:Ev;
    cbn; [|left; reflexivity].
  destruct (value (char_active (self w)) =? 0); cbn; [left; reflexivity|].
  rewrite ?Ev. cbn. right. exists mode. split; [reflexivity|].
  rewrite Hw in Ev. apply hc_homekit_to_hass_of_entry in Ev.
  destruct Ev as [Et Eu]. split; [|exact Et].
  apply str_in_In in Eu. apply usable_modes_sub in Eu. tauto.
Qed.

(** X21: the values the target-mode characteristic of a constructed
    accessory exports as valid are the values a mode write accepts: a
    value is among the exported ones exactly when the mode map has it. *)
Theorem exported_values_are_accepted (hass : Hass) (entity : string)
    (l0 l : Logger) (s : HeaterCooler) :
  __init__ hass entity l0 = (Ok s, l) ->
  exists valid,
    valid_values (char_target_heat_cool s) = Some valid /\
    forall v, exported valid v = dict_mem Z.eqb v (hc_homekit_to_hass s).
Proof.
  intros E.
  assert (G : forall usable v,
             exported (valid_values_of (hc_homekit_to_hass_of usable)) v
             = dict_mem Z.eqb v (hc_homekit_to_hass_of usable)).
  { intros usable v.
    assert (R : dict_mem Z.eqb v (hc_homekit_to_hass_of usable) = true ->
                v = 0 \/ v = 1 \/ v = 2).
    { unfold dict_mem.
      destruct (dict_get Z.eqb v (hc_homekit_to_hass_of usable)) as [m|] eqn:Ev;
        [|discriminate].
      intros _. apply hc_homekit_to_hass_of_entry in Ev.
      destruct Ev as [Ev _]. exact (HC_HASS_TO_HOMEKIT_values _ _ Ev). }
    unfold valid_values_of, valid_modes, exported. cbn [fold_left fst snd].
    set (h := hc_homekit_to_hass_of usable) in *. clearbody h.
    destruct (dict_mem Z.eqb 0 h) eqn:E0, (dict_mem Z.eqb 2 h) eqn:E2,
             (dict_mem Z.eqb 1 h) eqn:E1;
      unfold dict_set; cbn [String.eqb Ascii.eqb Bool.eqb existsb snd];
      destruct (Z.eq_dec v 0) as [->|N0];
      try (rewrite E0; reflexivity);
      destruct (Z.eq_dec v 1) as [->|N1];
      try (rewrite E1; reflexivity);
      destruct (Z.eq_dec v 2) as [->|N2];
      try (rewrite E2; reflexivity);
      (destruct (dict_mem Z.eqb v h);
       [exfalso; destruct R as [R|[R|R]]; auto
       |rewrite ?orb_false_r;
        repeat match goal with
               | |- context [?a =? v] =>
                   replace (a =? v) with false
                     by (symmetry; apply Z.eqb_neq; congruence)
               end; reflexivity]). }
  unfold_init.
  destruct (states_get hass entity) as [st|]; cbn in E; [|discriminate].
  split_step; try discriminate; injection E as <- <-; cbn;
    eexists; (split; [reflexivity|]); intros v; apply G.
Qed.

End Maps.

(** ** The temperature range *)

Section Range.
Context `{Imports}.

Lemma round_floor (q : Q) :
  (Qfloor q <= round q <= Qfloor q + 1)%Z.
Proof.
  unfold round.
  destruct (q - inject_Z (Qfloor q) ?= 1 # 2)%Q;
    [destruct (Z.even (Qfloor q))| |]; lia.
Qed.

Lemma round_near (q : Q) :
  (Qabs (inject_Z (round q) - q) <= 1 # 2)%Q.
Proof.
  pose proof (Qfloor_le q) as L. pose proof (Qlt_floor q) as U.
  rewrite inject_Z_plus in U. change (inject_Z 1) with 1%Q in U.
  apply Qabs_Qle_condition. unfold round.
  destruct (q - inject_Z (Qfloor q) ?= 1 # 2)%Q eqn:E.
  - apply Qeq_alt in E.
    destruct (Z.even (Qfloor q)); rewrite ?inject_Z_plus;
      change (inject_Z 1) with 1%Q; lra.
  - apply Qlt_alt in E. lra.
  - apply Qgt_alt in E. rewrite inject_Z_plus.
    change (inject_Z 1) with 1%Q. lra.
Qed.

Lemma round_mono (p q : Q) : (p <= q)%Q -> (round p <= round q)%Z.
Proof.
  intros Hpq.
  pose proof (Qfloor_resp_le p q Hpq) as F.
  pose proof (round_floor p) as Rp. pose proof (round_floor q) as Rq.
  destruct (Z.eq_dec (Qfloor p) (Qfloor q)) as [Ef|Nf]; [|lia].
  clear Rp Rq F. unfold round. rewrite <- Ef.
  destruct (p - inject_Z (Qfloor p) ?= 1 # 2)%Q eqn:Ep;
    destruct (q - inject_Z (Qfloor p) ?= 1 # 2)%Q eqn:Eq;
    try (destruct (Z.even (Qfloor p))); try lia; exfalso;
    first [apply Qeq_alt in Ep | apply Qlt_alt in Ep | apply Qgt_alt in Ep];
    first [apply Qeq_alt in Eq | apply Qlt_alt in Eq | apply Qgt_alt in Eq];
    lra.
Qed.

Lemma round_half_near (t : Q) : (Qabs (round_half t - t) <= 1 # 4)%Q.
Proof.
  pose proof (round_near (t * 2)) as N.
  apply Qabs_Qle_condition in N. apply Qabs_Qle_condition.
  unfold round_half, Qdiv. change (/ 2)%Q with (1 # 2)%Q. lra.
Qed.

Lemma round_half_mono (p q : Q) :
  (p <= q)%Q -> (round_half p <= round_half q)%Q.
Proof.
  intros Hpq. unfold round_half, Qdiv. change (/ 2)%Q with (1 # 2)%Q.
  assert (M : (round (p * 2) <= round (q * 2))%Z)
    by (apply round_mono; lra).
  rewrite Zle_Qle in M. lra.
Qed.

(** X22: [get_temperature_range] returns, when the device has a state,
    the two bounds rounded to halves: each bound it returns is half an
    integer and at most a quarter away from the bound it rounds, which is
    the reported one in protocol units, or the default when none or zero
    is reported; and rounding keeps the order of the two. *)
Theorem temperature_range_rounded (hass : Hass) (entity unit : string)
    (st : State) (l : Logger) :
  states_get hass entity = Some st ->
  let lo := reported_bound (min_temp (attributes st)) DEFAULT_MIN_TEMP unit in
  let hi := reported_bound (max_temp (attributes st)) DEFAULT_MAX_TEMP unit in
  exists a b : Z,
    get_temperature_range hass entity unit l
    = (Ok ((inject_Z a / 2)%Q, (inject_Z b / 2)%Q), l) /\
    (Qabs (inject_Z a / 2 - lo) <= 1 # 4)%Q /\
    (Qabs (inject_Z b / 2 - hi) <= 1 # 4)%Q /\
    ((lo <= hi)%Q -> (inject_Z a / 2 <= inject_Z b / 2)%Q).
Proof.
  intros Hst lo hi.
  exists (round (lo * 2)), (round (hi * 2)).
  split; [|split; [|split]].
  - unfold get_temperature_range, state_attributes, bind, ret.
    rewrite Hst. reflexivity.
  - exact (round_half_near lo).
  - exact (round_half_near hi).
  - exact (round_half_mono lo hi).
Qed.

End Range.

(** * The properties on the sample devices *)

#[local] Existing Instance Sample.imports.

Lemma sample_distinct_modes : distinct_modes.
Proof.
  unfold distinct_modes. cbn.
  repeat (constructor; [cbn; intuition discriminate|]). constructor.
Qed.

(** C1, as the code has it: the refresh after a write to the fan speed
    overwrites the characteristic. A controller writes swing mode 1 and
    rotation speed 100, which sets both flags; the device still reports
    the speed "low" and the swing mode "swing_off". The refresh returns,
    keeps the written swing mode, and replaces the written speed by the
    reported one, 50. *)
Theorem fan_speed_echo_not_suppressed :
  let written := exec Sample.controller_writes Sample.world in
  let refreshed := exec (update_state Sample.full) written in
  outcome Sample.controller_writes Sample.world = Ok tt /\
  _flag_swing (self written) = Assigned true /\
  _flag_fan (self written) = Assigned true /\
  Sample.swing_value written = Some 1 /\
  Sample.speed_value written = Some 100%Q /\
  outcome (update_state Sample.full) written = Ok tt /\
  Sample.swing_value refreshed = Some 1 /\
  Sample.speed_value refreshed = Some 50%Q /\
  _flag_fan (self refreshed) = Assigned false.
Proof. vm_compute. repeat split. Qed.

(** C2 on three writes, 24, 25 and 26, to the accessory of the sample
    device: one command, with 26 as the high bound and the heating
    threshold, 19, as the low bound. *)
Lemma cooling_threshold_debounced_witness :
  calls
    (exec (debounce_writes "set_cooling_threshold" [24; 25; 26]%Q ;;
           debounce_expire "set_cooling_threshold" set_cooling_threshold)
       Sample.world)
  = [cooling_command Sample.accessory 26 19].
Proof.
  assert (Hh : exists c, char_heating_thresh_temp (self Sample.world) = Some c
                         /\ value c = 19%Q)
    by (eexists; split; reflexivity).
  destruct Hh as (c & Hc & Hv).
  pose proof (cooling_threshold_debounced (H := Sample.imports) 3 [24; 25; 26]%Q Sample.world c
                ltac:(lia) eq_refl Hc) as (_ & _ & E & _).
  rewrite Hv in E. exact E.
Defined.

(** C3 on the value 3, which no usable mode maps to. *)
Lemma set_heat_cool_rejects_unusable_value_witness :
  outcome (set_heat_cool 3) Sample.world = Ok tt /\
  calls (exec (set_heat_cool 3) Sample.world) = [] /\
  self (exec (set_heat_cool 3) Sample.world) = Sample.accessory /\
  logged (exec (set_heat_cool 3) Sample.world)
  = [invalid_heat_cool Sample.entity 3].
Proof.
  pose proof (set_heat_cool_rejects_unusable_value Sample.world 3 eq_refl)
    as (E1 & E2 & E3 & _ & E4 & _).
  repeat split; assumption.
Defined.

(** The usable modes of the sample device: Heat+Cool and Fan-only are
    dropped, 0 stands for Auto and 2 for Cool. *)
Lemma subsumed_modes_dropped_witness :
  let modes := ["heat"; "cool"; "auto"; "heat_cool"; "fan_only"] in
  usable_modes modes = ["heat"; "cool"; "auto"] /\
  dict_get Z.eqb 0 (hc_homekit_to_hass_of (usable_modes modes)) = Some "auto" /\
  dict_get Z.eqb 2 (hc_homekit_to_hass_of (usable_modes modes)) = Some "cool" /\
  exported (valid_values_of (hc_homekit_to_hass_of (usable_modes modes))) 0
  = true.
Proof.
  assert (Hn : NoDup ["heat"; "cool"; "auto"; "heat_cool"; "fan_only"]).
  { repeat (constructor; [cbn; intuition discriminate|]). constructor. }
  pose proof (subsumed_modes_dropped (H := Sample.imports)
                ["heat"; "cool"; "auto"; "heat_cool"; "fan_only"]
                sample_distinct_modes Hn) as [S1 S2].
  destruct (S1 eq_refl eq_refl) as (_ & _ & E0 & X0).
  destruct (S2 eq_refl eq_refl) as (_ & _ & E2 & _).
  cbv zeta. split; [reflexivity|]. repeat split; assumption.
Defined.

(** C4 as stated fails: with Auto and Heat+Cool available, Heat+Cool
    is dropped and its protocol value, 0, is still exported, for Auto.
    With Heat+Cool listed twice, one entry stays usable. *)
Lemma subsumed_value_still_exported :
  ~ subsumed_value_absent ["auto"; "heat_cool"] /\
  usable_modes ["auto"; "heat_cool"] = ["auto"] /\
  valid_values_of (hc_homekit_to_hass_of (usable_modes ["auto"; "heat_cool"]))
  = [("Auto", 0)] /\
  str_in "heat_cool" (usable_modes ["auto"; "heat_cool"; "heat_cool"]) = true.
Proof.
  split; [|repeat split].
  intros [S _]. destruct (S eq_refl eq_refl) as [_ V].
  specialize (V 0 eq_refl). vm_compute in V. discriminate V.
Qed.

(** C5 on the sample device without its mode list. *)
Lemma init_raises_without_modes_witness :
  __init__ (Sample.hass_with (Sample.device "heat" 1 None None None))
    Sample.entity []
  = (Raise TypeError, [modes_not_available Sample.entity]).
Proof.
  exact (init_raises_without_modes (H := Sample.imports)
           (Sample.hass_with (Sample.device "heat" 1 None None None))
           Sample.entity (Sample.device "heat" 1 None None None) []
           eq_refl eq_refl).
Defined.

(** C6 on the heater and on the device with fan and swing: the first
    refresh raises. *)
Lemma first_refresh_raises_witness :
  (exists e, outcome (update_state Sample.heater)
               (fresh Sample.heater_accessory []) = Raise e) /\
  (exists e, outcome (update_state Sample.full) Sample.world = Raise e).
Proof.
  split.
  - exact (first_refresh_raises (H := Sample.imports) (Sample.hass_with Sample.heater)
             Sample.entity [] [] Sample.heater_accessory Sample.heater
             eq_refl).
  - exact (first_refresh_raises (H := Sample.imports) (Sample.hass_with Sample.full)
             Sample.entity [] [] Sample.accessory Sample.full eq_refl).
Defined.

(** C7 on the cooler: the cooling threshold is the one exposed. *)
Lemma temperature_characteristic_selection_witness :
  exists s l,
    __init__ (Sample.hass_with Sample.cooler) Sample.entity [] = (Ok s, l) /\
    exposes_single s CHAR_COOLING_THRESHOLD_TEMPERATURE
      CHAR_HEATING_THRESHOLD_TEMPERATURE.
Proof.
  destruct (temperature_characteristic_selection (H := Sample.imports)
              (Sample.hass_with Sample.cooler) Sample.entity Sample.cooler
              ["cool"; "off"] [] eq_refl eq_refl)
    as (s & l & E & _ & S).
  exists s, l. split; [exact E|].
  destruct (S eq_refl eq_refl) as (_ & C & _).
  exact (C eq_refl eq_refl).
Defined.

(** C8 on the swing modes "swing_off" and "swing_on". *)
Lemma swing_characteristic_selection_witness :
  exists s l,
    __init__ (Sample.hass_with Sample.full) Sample.entity [] = (Ok s, l) /\
    char_in CHAR_SWING_MODE (chars s) = true /\
    _swing_off s = Assigned "swing_off" /\
    _swing_on s = Assigned "swing_on".
Proof.
  destruct (swing_characteristic_selection (H := Sample.imports)
              (Sample.hass_with Sample.full) Sample.entity Sample.full
              ["heat"; "cool"; "auto"; "heat_cool"; "fan_only"] []
              eq_refl eq_refl eq_refl)
    as (s & l & E & I & P & _).
  assert (B : fst (partition off_like ["swing_off"; "swing_on"]) <> [] /\
              snd (partition off_like ["swing_off"; "swing_on"]) <> [])
    by (split; discriminate).
  exists s, l. split; [exact E|]. split; [exact (proj2 I B)|].
  destruct (P B) as (_ & O & N). split; [exact O | exact N].
Defined.

(** C8 on the swing modes "low", "medium" and "high": no part is
    off-like, the characteristic is left out and the error logged. *)
Example swing_modes_without_off :
  __init__ (Sample.hass_with Sample.breezy) Sample.entity []
  = (Ok Sample.breezy_accessory, [could_not_map_swing_modes Sample.entity]) /\
  char_in CHAR_SWING_MODE (chars Sample.breezy_accessory) = false /\
  char_swing Sample.breezy_accessory = Unassigned.
Proof. repeat split. Qed.

(** The device with a temperature range and the modes Heat, Cool and
    Heat+Cool: both thresholds, no single target temperature, bounds 7
    and 35 with step one half, and the valid values 0, 2 and 1. *)
Example range_device :
  exposes_range Sample.ranged_accessory /\
  valid_values (char_target_heat_cool Sample.ranged_accessory)
  = Some [("Auto", 0); ("Cool", 2); ("Heat", 1)] /\
  hc_homekit_to_hass Sample.ranged_accessory
  = [(1, "heat"); (2, "cool"); (0, "heat_cool")] /\
  option_map properties (char_cooling_thresh_temp Sample.ranged_accessory)
  = Some (Some {| PROP_MIN_VALUE := 14 # 2; PROP_MAX_VALUE := 70 # 2;
                  PROP_MIN_STEP := 1 # 2 |}).
Proof.
  unfold exposes_range. vm_compute. repeat split; eexists; split; reflexivity.
Qed.

(** C10 on the switched-off accessory and the value 1 (Heat), with the
    device then reporting the mode "cool": the write changes nothing,
    and the refresh sets the mode characteristic to 2. *)
Lemma set_heat_cool_dropped_when_inactive_witness :
  calls (exec (set_heat_cool 1) Sample.idle) = [] /\
  self (exec (set_heat_cool 1) Sample.idle) = self Sample.idle /\
  value (char_target_heat_cool
           (self (exec (update_state Sample.full)
                    (exec (set_heat_cool 1) Sample.idle)))) = 2.
Proof.
  pose proof (set_heat_cool_dropped_when_inactive (H := Sample.imports)
                Sample.idle 1
                eq_refl eq_refl) as (_ & E1 & E2 & _ & _ & _ & R).
  split; [exact E1|]. split; [exact E2|].
  exact (proj1 (R Sample.full 2 eq_refl eq_refl eq_refl eq_refl)).
Defined.

(** X6 on the sample accessory: the value 1 is written while the device
    is in the mode "cool"; the command names "heat", and the second
    refresh sets the target mode to 2. *)
Lemma mode_write_then_refreshes_witness :
  let w0 := exec (set_heat_cool 1) Sample.world in
  let w2 := exec (update_state Sample.full)
              (exec (update_state Sample.full) w0) in
  calls w0 = [mode_command Sample.accessory "heat"] /\
  value (char_target_heat_cool (self w2)) = 2.
Proof.
  pose proof (mode_write_then_refreshes (H := Sample.imports) Sample.world
                1 2 "heat" Sample.full Sample.full eq_refl
                ltac:(discriminate) eq_refl eq_refl eq_refl)
    as (_ & E1 & _ & _ & E2 & _).
  cbv zeta. split; [exact E1|]. rewrite E2. reflexivity.
Defined.

(** X8 on the sample accessory, whose target mode holds 0: switching on
    hands over the command for "auto". *)
Lemma power_on_reasserts_held_mode_witness :
  calls (exec (set_active 1) Sample.world)
  = [mode_command Sample.accessory "auto"].
Proof.
  pose proof (power_on_reasserts_held_mode (H := Sample.imports)
                Sample.world 1 ltac:(discriminate)) as (_ & _ & E & _).
  exact (eq_trans E eq_refl).
Defined.

(** X9 on the sample accessory: the value 3 is rejected, and the write
    of 1 after it hands over the command for "heat". *)
Lemma retry_after_rejected_write_witness :
  calls (exec (set_heat_cool 1) (exec (set_heat_cool 3) Sample.world))
  = [mode_command Sample.accessory "heat"].
Proof.
  pose proof (retry_after_rejected_write
                Sample.world 3 1 eq_refl) as (_ & _ & E).
  exact (eq_trans E eq_refl).
Defined.


(** X11 on the sample accessory: 24 is written while the device reports
    the high bound 25; the first refresh keeps the cooling threshold, 23,
    and the second sets it to 25. *)
Lemma cooling_threshold_write_then_refreshes_witness :
  let w0 := exec (set_cooling_threshold 24) Sample.world in
  let w1 := exec (update_state Sample.full) w0 in
  let w2 := exec (update_state Sample.full) w1 in
  option_map value (char_cooling_thresh_temp (self w1)) = Some 23%Q /\
  option_map value (char_cooling_thresh_temp (self w2)) = Some 25%Q.
Proof.
  assert (Hc : exists c, char_cooling_thresh_temp (self Sample.world) = Some c
                         /\ value c = 23%Q)
    by (eexists; split; reflexivity).
  assert (Hh : exists c, char_heating_thresh_temp (self Sample.world) = Some c)
    by (eexists; reflexivity).
  destruct Hc as (c & Hc & Vc). destruct Hh as (h & Hh).
  pose proof (cooling_threshold_write_then_refreshes (H := Sample.imports)
                Sample.world 24 25 c h Sample.full Sample.full Hc Hh eq_refl
                eq_refl) as (_ & E1 & _ & E2).
  cbv zeta. rewrite E1, E2. cbn. rewrite Vc. split; reflexivity.
Defined.

(** X12 on the sample accessory: 18 is written while the device reports
    the low bound 20; the command carries 18 and the cooling threshold,
    23, and the second refresh sets the heating threshold to 20. *)
Lemma heating_threshold_write_then_refreshes_witness :
  let w0 := exec (set_heating_threshold 18) Sample.world in
  let w2 := exec (update_state Sample.full)
              (exec (update_state Sample.full) w0) in
  calls w0 = [heating_command Sample.accessory 18 23] /\
  option_map value (char_heating_thresh_temp (self w2)) = Some 20%Q.
Proof.
  assert (Hc : exists c, char_cooling_thresh_temp (self Sample.world) = Some c
                         /\ value c = 23%Q)
    by (eexists; split; reflexivity).
  assert (Hh : exists c, char_heating_thresh_temp (self Sample.world) = Some c)
    by (eexists; reflexivity).
  destruct Hc as (c & Hc & Vc). destruct Hh as (h & Hh).
  pose proof (heating_threshold_write_then_refreshes (H := Sample.imports)
                Sample.world 18 20 c h Sample.full Sample.full Hc Hh eq_refl)
    as (_ & E1 & _ & E2).
  cbv zeta. rewrite E1, E2, Vc. split; reflexivity.
Defined.


(** X4 on the sample accessory: the action "drying" is not in the action
    table, and the refresh raises [KeyError]. *)
Lemma unknown_action_stops_refresh_witness :
  outcome (update_state Sample.drying) Sample.world = Raise KeyError.
Proof.
  exact (proj1 (unknown_action_stops_refresh (H := Sample.imports)
                  Sample.drying Sample.world "drying" eq_refl eq_refl
                  eq_refl)).
Defined.

(** X16 on the sample accessory. *)
Lemma constructed_accessory_is_consistent_witness :
  NoDup (chars Sample.accessory) /\
  assigned (char_speed Sample.accessory) = true /\
  assigned (char_swing Sample.accessory) = true /\
  is_some (char_target_temp Sample.accessory) = false.
Proof.
  pose proof (constructed_accessory_is_consistent (H := Sample.imports)
                (Sample.hass_with Sample.full) Sample.entity [] []
                Sample.accessory eq_refl)
    as (N & S1 & _ & S2 & _).
  split; [exact N|]. split; [exact (eq_trans S1 eq_refl)|].
  split; [exact (eq_trans S2 eq_refl) | reflexivity].
Defined.


(** X18 on the sample accessory: the bounds 16 and 30 and the step 1. *)
Lemma temperature_characteristics_carry_range_witness :
  option_map properties (char_cooling_thresh_temp Sample.accessory)
  = Some (Some {| PROP_MIN_VALUE := round_half 16;
                  PROP_MAX_VALUE := round_half 30;
                  PROP_MIN_STEP := 1 |}).
Proof.
  assert (Hc : exists c, char_cooling_thresh_temp Sample.accessory = Some c)
    by (eexists; reflexivity).
  destruct Hc as (c & Hc).
  pose proof (proj1 (temperature_characteristics_carry_range
                       (H := Sample.imports) (Sample.hass_with Sample.full)
                       Sample.entity Sample.full [] [] Sample.accessory
                       eq_refl eq_refl) c Hc) as E.
  rewrite Hc. cbn [option_map]. rewrite E. reflexivity.
Defined.

(** X19 on the modes of the sample device: Cool is selected by 2. *)
Lemma listed_modes_selectable_witness :
  let modes := ["heat"; "cool"; "auto"; "heat_cool"; "fan_only"] in
  dict_get Z.eqb 2 (hc_homekit_to_hass_of (usable_modes modes)) = Some "cool" /\
  exported (valid_values_of (hc_homekit_to_hass_of (usable_modes modes))) 2
  = true.
Proof.
  assert (Hn : NoDup ["heat"; "cool"; "auto"; "heat_cool"; "fan_only"]).
  { repeat (constructor; [cbn; intuition discriminate|]). constructor. }
  exact (listed_modes_selectable (H := Sample.imports)
           ["heat"; "cool"; "auto"; "heat_cool"; "fan_only"] "cool" 2
           sample_distinct_modes Hn ltac:(cbn; tauto) eq_refl
           ltac:(intros [E _]; discriminate E)
           ltac:(intros [E _]; discriminate E)).
Defined.

(** X20 on the sample accessory and the value 1: the command names
    "heat", which the device lists. *)
Lemma mode_commands_name_listed_modes_witness :
  calls (exec (set_heat_cool 1) Sample.world) = calls Sample.world \/
  exists mode,
    calls (exec (set_heat_cool 1) Sample.world)
    = calls Sample.world ++ [mode_command Sample.accessory mode] /\
    In mode ["heat"; "cool"; "auto"; "heat_cool"; "fan_only"] /\
    dict_get String.eqb mode HC_HASS_TO_HOMEKIT = Some 1.
Proof.
  exact (mode_commands_name_listed_modes (H := Sample.imports)
           (Sample.hass_with Sample.full) Sample.entity Sample.full
           ["heat"; "cool"; "auto"; "heat_cool"; "fan_only"] [] []
           Sample.accessory Sample.world 1 eq_refl eq_refl eq_refl eq_refl).
Defined.

(** X21 on the sample accessory. *)
Lemma exported_values_are_accepted_witness :
  exists valid,
    valid_values (char_target_heat_cool Sample.accessory) = Some valid /\
    forall v, exported valid v
              = dict_mem Z.eqb v (hc_homekit_to_hass Sample.accessory).
Proof.
  exact (exported_values_are_accepted (H := Sample.imports)
           (Sample.hass_with Sample.full) Sample.entity [] []
           Sample.accessory eq_refl).
Defined.

(** X22 on the sample device, which reports the bounds 16 and 30. *)
Lemma temperature_range_rounded_witness :
  exists a b : Z,
    get_temperature_range (Sample.hass_with Sample.full) Sample.entity
      "°C" []
    = (Ok ((inject_Z a / 2)%Q, (inject_Z b / 2)%Q), []) /\
    (Qabs (inject_Z a / 2 - 16) <= 1 # 4)%Q /\
    (Qabs (inject_Z b / 2 - 30) <= 1 # 4)%Q.
Proof.
  destruct (temperature_range_rounded (H := Sample.imports)
              (Sample.hass_with Sample.full) Sample.entity "°C" Sample.full
              [] eq_refl) as (a & b & E & A & B & _).
  exists a, b. split; [exact E|]. split; [exact A | exact B].
Defined.
